(** * Agent token orchestration: a shallow embedding of [demo_token_flow.py]

    The development follows the layout of the script: the byte-level
    utilities used by the PKCE generator and the claim decoder come first, then
    the Python values exchanged with the identity provider, the three-step
    actor-token flow, the token-exchange step and the orchestration driver.

    Conventions.
    - A Python [str] is a Rocq [string]; each character stands for the code
      point with the same number (so the model covers code points below 256).
    - A Python [bytes] object is a [list byte].
    - A computation that may raise returns a [res]; code that also talks to the
      identity provider, draws entropy or prints lives in the monad [M]. *)

From Stdlib Require Import NArith ZArith List String Ascii Bool Lia.
From Stdlib Require Import Sorted Permutation.
From Stdlib.Strings Require Import Byte.
Import ListNotations.

Local Open Scope string_scope.
Local Open Scope list_scope.

Set Implicit Arguments.
Set Warnings "-register-all".

(** ** Python values *)

(** A [float]: not-a-number, an infinity, or the finite value
    [mantissa * 2 ^ exponent]. *)
Inductive pyfloat : Type :=
| Fnan
| Finf (negative : bool)
| Ffin (mantissa exponent : Z).

(** The objects [json.loads] and [Response.json] hand to the script, which are
    also the values the script puts into request bodies.  A [dict] keeps its
    items in insertion order; its keys are strings. *)
Inductive pyval : Type :=
| PNone
| PBool (b : bool)
| PInt (z : Z)
| PFloat (f : pyfloat)
| PStr (s : string)
| PList (l : list pyval)
| PDict (items : list (string * pyval)).

(** ** Exceptions and results *)

(** The message of a [ValueError].  The script builds its messages with
    f-strings; the text of a formatted value is kept as the value itself:
    - [Text s] is the literal [s];
    - [TextValue s v] is [f"{s}{v}"];
    - [TextStatus s status text] is [f"{s}{status} - {text}"]. *)
Inductive message : Type :=
| Text (s : string)
| TextValue (s : string) (v : pyval)
| TextStatus (s : string) (status : Z) (text : string).

(** The exception classes the script can meet.  All of them derive from
    Python's [Exception], so every [except Exception] clause catches them.
    The texts of the exceptions the libraries raise are indicative. *)
Inductive exn : Type :=
| ValueError (msg : message)
| TypeError (msg : string)
| AttributeError (msg : string)
| JSONDecodeError
| UnicodeError
| Base64Error
| TransportError (msg : string).

Inductive res (A : Type) : Type :=
| Ok (a : A)
| Raise (e : exn).
Arguments Ok {A} a.
Arguments Raise {A} e.

Definition res_bind {A B} (r : res A) (k : A -> res B) : res B :=
  match r with
  | Ok a => k a
  | Raise e => Raise e
  end.

Definition raises {A} (r : res A) : Prop := exists e, r = Raise e.

(** ** Bytes and strings *)

Definition bytes := list byte.

Definition byte_of_N (n : N) : byte := byte_of_ascii (ascii_of_N n).
Definition N_of_byte (b : byte) : N := Byte.to_N b.

Definition bytes_of_string (s : string) : bytes :=
  List.map byte_of_ascii (list_ascii_of_string s).
Definition string_of_bytes (b : bytes) : string :=
  string_of_list_ascii (List.map ascii_of_byte b).

Definition is_ascii_char (c : ascii) : bool := (N_of_ascii c <? 128)%N.
Definition is_ascii_byte (b : byte) : bool := (N_of_byte b <? 128)%N.

(** [s.encode('ascii')] *)
Definition encode_ascii (s : string) : res bytes :=
  if forallb is_ascii_char (list_ascii_of_string s)
  then Ok (bytes_of_string s)
  else Raise UnicodeError.

(** [b.decode('ascii')] *)
Definition decode_ascii (b : bytes) : res string :=
  if forallb is_ascii_byte b then Ok (string_of_bytes b) else Raise UnicodeError.

(** [s.encode()], that is UTF-8, for code points below 256. *)
Definition utf8_char (c : ascii) : bytes :=
  let n := N_of_ascii c in
  if (n <? 128)%N then [byte_of_N n]
  else [byte_of_N (N.lor 192 (N.shiftr n 6)); byte_of_N (N.lor 128 (N.land n 63))].

Definition encode_utf8 (s : string) : bytes :=
  List.flat_map utf8_char (list_ascii_of_string s).

(** [b.rstrip(chars)] on bytes. *)
Fixpoint drop_while {A} (p : A -> bool) (l : list A) : list A :=
  match l with
  | [] => []
  | x :: t => if p x then drop_while p t else l
  end.

Definition rstrip (chars : bytes) (b : bytes) : bytes :=
  rev (drop_while (fun x => existsb (Byte.eqb x) chars) (rev b)).

(** ** Base64 (module [base64]) *)

Definition b64_alphabet : string :=
  "ABCDEFGHIJKLMNOPQRSTUVWXYZabcdefghijklmnopqrstuvwxyz0123456789+/".

Definition pad_byte : byte := "="%byte.

Definition nth_char (alphabet : string) (i : N) : byte :=
  match String.get (N.to_nat i) alphabet with
  | Some c => byte_of_ascii c
  | None => pad_byte
  end.

Definition b64char (i : N) : byte := nth_char b64_alphabet i.

(** [binascii.b2a_base64] without the newline: three bytes give four
    characters, the last group is padded with [=]. *)
Fixpoint b64encode (s : bytes) : bytes :=
  match s with
  | [] => []
  | [a] =>
      let a := N_of_byte a in
      [b64char (N.shiftr a 2); b64char (N.shiftl (N.land a 3) 4); pad_byte; pad_byte]
  | [a; b] =>
      let a := N_of_byte a in
      let b := N_of_byte b in
      [b64char (N.shiftr a 2);
       b64char (N.lor (N.shiftl (N.land a 3) 4) (N.shiftr b 4));
       b64char (N.shiftl (N.land b 15) 2); pad_byte]
  | a :: b :: c :: rest =>
      let a := N_of_byte a in
      let b := N_of_byte b in
      let c := N_of_byte c in
      b64char (N.shiftr a 2)
      :: b64char (N.lor (N.shiftl (N.land a 3) 4) (N.shiftr b 4))
      :: b64char (N.lor (N.shiftl (N.land b 15) 2) (N.shiftr c 6))
      :: b64char (N.land c 63)
      :: b64encode rest
  end.

(** [bytes.translate] for the two characters that differ between the standard
    and the URL-safe alphabet. *)
Definition urlsafe_encode_translation (b : byte) : byte :=
  if Byte.eqb b "+"%byte then "-"%byte
  else if Byte.eqb b "/"%byte then "_"%byte
  else b.

Definition urlsafe_decode_translation (b : byte) : byte :=
  if Byte.eqb b "-"%byte then "+"%byte
  else if Byte.eqb b "_"%byte then "/"%byte
  else b.

Definition urlsafe_b64encode (s : bytes) : bytes :=
  List.map urlsafe_encode_translation (b64encode s).

(** *** Decoding, as [binascii.a2b_base64] does it when not strict

    Characters outside the alphabet are skipped; a run of padding ends the
    input once the current group holds at least two characters; input that
    stops inside a group is an error. *)

Fixpoint index_from (b : byte) (l : list ascii) (i : N) : option N :=
  match l with
  | [] => None
  | c :: t => if Byte.eqb b (byte_of_ascii c) then Some i else index_from b t (N.succ i)
  end.

Definition b64value (b : byte) : option N :=
  index_from b (list_ascii_of_string b64_alphabet) 0%N.

Record a2b_state : Type := mk_a2b {
  quad_pos : N;
  leftchar : N;
  pads : N;
  bin_data : bytes  (* most recent byte first *)
}.

Fixpoint a2b_loop (s : bytes) (st : a2b_state) : res bytes :=
  match s with
  | [] =>
      if (quad_pos st =? 0)%N then Ok (rev (bin_data st)) else Raise Base64Error
  | ch :: rest =>
      if Byte.eqb ch pad_byte then
        if ((2 <=? quad_pos st) && (4 <=? quad_pos st + (pads st + 1)))%N%bool
        then Ok (rev (bin_data st))
        else a2b_loop rest
               (mk_a2b (quad_pos st) (leftchar st)
                  (if (2 <=? quad_pos st)%N then (pads st + 1)%N else pads st)
                  (bin_data st))
      else
        match b64value ch with
        | None => a2b_loop rest st
        | Some v =>
            let out := bin_data st in
            let lc := leftchar st in
            match quad_pos st with
            | 0%N => a2b_loop rest (mk_a2b 1 v 0 out)
            | 1%N =>
                a2b_loop rest
                  (mk_a2b 2 (N.land v 15) 0
                     (byte_of_N (N.lor (N.shiftl lc 2) (N.shiftr v 4)) :: out))
            | 2%N =>
                a2b_loop rest
                  (mk_a2b 3 (N.land v 3) 0
                     (byte_of_N (N.lor (N.shiftl lc 4) (N.shiftr v 2)) :: out))
            | _ =>
                a2b_loop rest
                  (mk_a2b 0 0 0 (byte_of_N (N.lor (N.shiftl lc 6) v) :: out))
            end
        end
  end.

Definition a2b_base64 (s : bytes) : res bytes := a2b_loop s (mk_a2b 0 0 0 []).

(** [base64.urlsafe_b64decode] applied to a [str]: the text must be ASCII,
    [-] and [_] are mapped to [+] and [/], then the standard decoder runs. *)
Definition urlsafe_b64decode (s : string) : res bytes :=
  match encode_ascii s with
  | Raise _ =>
      Raise (ValueError (Text "string argument should contain only ASCII characters"))
  | Ok b => a2b_base64 (List.map urlsafe_decode_translation b)
  end.

(** ** SHA-256 (module [hashlib]), after FIPS 180-4 *)

Module SHA256.

Definition w32 (x : N) : N := (x mod 4294967296)%N.
Definition add32 (x y : N) : N := w32 (x + y).
Definition rotr (n x : N) : N :=
  w32 (N.lor (N.shiftr x n) (N.shiftl x (32 - n))).
Definition not32 (x : N) : N := (4294967295 - x)%N.

Definition Ch (x y z : N) : N := N.lxor (N.land x y) (N.land (not32 x) z).
Definition Maj (x y z : N) : N :=
  N.lxor (N.lxor (N.land x y) (N.land x z)) (N.land y z).
Definition Sigma0 (x : N) : N := N.lxor (N.lxor (rotr 2 x) (rotr 13 x)) (rotr 22 x).
Definition Sigma1 (x : N) : N := N.lxor (N.lxor (rotr 6 x) (rotr 11 x)) (rotr 25 x).
Definition sigma0 (x : N) : N := N.lxor (N.lxor (rotr 7 x) (rotr 18 x)) (N.shiftr x 3).
Definition sigma1 (x : N) : N := N.lxor (N.lxor (rotr 17 x) (rotr 19 x)) (N.shiftr x 10).

(** The round constants are the first 32 bits of the fractional parts of the
    cube roots of the first 64 primes; the initial hash value takes the square
    roots of the first 8 primes. *)
Definition primes : list N :=
  [ 2; 3; 5; 7; 11; 13; 17; 19; 23; 29; 31; 37; 41; 43; 47; 53; 59; 61; 67; 71;
    73; 79; 83; 89; 97; 101; 103; 107; 109; 113; 127; 131; 137; 139; 149; 151;
    157; 163; 167; 173; 179; 181; 191; 193; 197; 199; 211; 223; 227; 229; 233;
    239; 241; 251; 257; 263; 269; 271; 277; 281; 283; 293; 307; 311 ]%N.

(** The integer cube root, one bit at a time from bit [bits - 1] down. *)
Fixpoint cube_root_bits (bits : nat) (n r : N) : N :=
  match bits with
  | O => r
  | S k =>
      let c := (r + N.shiftl 1 (N.of_nat k))%N in
      cube_root_bits k n (if (c * c * c <=? n)%N then c else r)
  end.

Definition frac_cube_root (p : N) : N := w32 (cube_root_bits 36 (N.shiftl p 96) 0).
Definition frac_square_root (p : N) : N := w32 (N.sqrt (N.shiftl p 64)).

Definition K : list N := Eval vm_compute in List.map frac_cube_root primes.

(** The eight working variables, also the running hash value. *)
Record state : Type := mk_state {
  ha : N; hb : N; hc : N; hd : N; he : N; hf : N; hg : N; hh : N
}.

Definition H0 : state :=
  Eval vm_compute in
    match List.map frac_square_root (firstn 8 primes) with
    | [a; b; c; d; e; f; g; h] => mk_state a b c d e f g h
    | _ => mk_state 0 0 0 0 0 0 0 0
    end.

(** Padding: a one bit, zeros up to 56 modulo 64, the bit length on 64 bits. *)
Fixpoint be_bytes (n : nat) (x : N) : bytes :=
  match n with
  | O => []
  | S k => byte_of_N (N.shiftr x (8 * N.of_nat k)) :: be_bytes k x
  end.

Definition pad (msg : bytes) : bytes :=
  let len := List.length msg in
  let zeros := ((119 - len mod 64) mod 64)%nat in
  msg ++ [byte_of_N 128] ++ List.repeat (byte_of_N 0) zeros
      ++ be_bytes 8 (8 * N.of_nat len).

Fixpoint be_word (bs : bytes) (acc : N) : N :=
  match bs with
  | [] => acc
  | b :: t => be_word t (N.shiftl acc 8 + N_of_byte b)%N
  end.

(** The sixteen message words of a 64-byte block. *)
Fixpoint words (n : nat) (block : bytes) : list N :=
  match n with
  | O => []
  | S k => be_word (firstn 4 block) 0 :: words k (skipn 4 block)
  end.

(** Message schedule: [w] holds W_0 .. W_(t-1), extended by [n] words. *)
Fixpoint schedule (n : nat) (w : list N) : list N :=
  match n with
  | O => w
  | S k =>
      let t := List.length w in
      let at_ i := nth (t - i) w 0%N in
      schedule k
        (w ++ [add32 (add32 (sigma1 (at_ 2%nat)) (at_ 7%nat))
                     (add32 (sigma0 (at_ 15%nat)) (at_ 16%nat))])
  end.

Definition round (s : state) (kw : N * N) : state :=
  let (k, w) := kw in
  let t1 := add32 (add32 (add32 (hh s) (Sigma1 (he s))) (Ch (he s) (hf s) (hg s)))
                  (add32 k w) in
  let t2 := add32 (Sigma0 (ha s)) (Maj (ha s) (hb s) (hc s)) in
  mk_state (add32 t1 t2) (ha s) (hb s) (hc s) (add32 (hd s) t1) (he s) (hf s) (hg s).

Definition compress (h : state) (block : bytes) : state :=
  let w := schedule 48 (words 16 block) in
  let s := fold_left round (combine K w) h in
  mk_state (add32 (ha h) (ha s)) (add32 (hb h) (hb s)) (add32 (hc h) (hc s))
           (add32 (hd h) (hd s)) (add32 (he h) (he s)) (add32 (hf h) (hf s))
           (add32 (hg h) (hg s)) (add32 (hh h) (hh s)).

(** [n] blocks of 64 bytes, in order. *)
Fixpoint blocks (n : nat) (h : state) (data : bytes) : state :=
  match n with
  | O => h
  | S k => blocks k (compress h (firstn 64 data)) (skipn 64 data)
  end.

Definition digest (msg : bytes) : bytes :=
  let p := pad msg in
  let h := blocks (List.length p / 64) H0 p in
  be_bytes 4 (ha h) ++ be_bytes 4 (hb h) ++ be_bytes 4 (hc h) ++ be_bytes 4 (hd h)
  ++ be_bytes 4 (he h) ++ be_bytes 4 (hf h) ++ be_bytes 4 (hg h) ++ be_bytes 4 (hh h).

End SHA256.

(** [hashlib.sha256(data).digest()] *)
Definition sha256 (data : bytes) : bytes := SHA256.digest data.

(** ** PKCE (function [generate_pkce]) *)

(** [secrets.token_urlsafe(nbytes)] is the URL-safe Base64 text of [nbytes]
    random bytes without its padding; [tok] is what [token_bytes] returned. *)
Definition token_urlsafe (tok : bytes) : res string :=
  decode_ascii (rstrip [pad_byte] (urlsafe_b64encode tok)).

(** The second and third line of [generate_pkce]: the challenge that belongs
    to a verifier. *)
Definition code_challenge_of (verifier : string) : res string :=
  res_bind (encode_ascii verifier) (fun v =>
  let digest := sha256 v in
  decode_ascii (rstrip [pad_byte] (urlsafe_b64encode digest))).

(** [generate_pkce], given the 64 bytes drawn from the system's entropy. *)
Definition generate_pkce_from (tok : bytes) : res (string * string) :=
  res_bind (token_urlsafe tok) (fun verifier =>
  res_bind (code_challenge_of verifier) (fun challenge =>
  Ok (verifier, challenge))).

(** *** The challenge as the specification words it

    URL-safe Base64 without padding (RFC 4648, section 5, padding omitted):
    the same sextets, taken from the URL-safe alphabet, and no [=] at all. *)

Definition base64url_alphabet : string :=
  "ABCDEFGHIJKLMNOPQRSTUVWXYZabcdefghijklmnopqrstuvwxyz0123456789-_".

Definition url64char (i : N) : byte := nth_char base64url_alphabet i.

Fixpoint base64url_nopad (s : bytes) : bytes :=
  match s with
  | [] => []
  | [a] =>
      let a := N_of_byte a in
      [url64char (N.shiftr a 2); url64char (N.shiftl (N.land a 3) 4)]
  | [a; b] =>
      let a := N_of_byte a in
      let b := N_of_byte b in
      [url64char (N.shiftr a 2);
       url64char (N.lor (N.shiftl (N.land a 3) 4) (N.shiftr b 4));
       url64char (N.shiftl (N.land b 15) 2)]
  | a :: b :: c :: rest =>
      let a := N_of_byte a in
      let b := N_of_byte b in
      let c := N_of_byte c in
      url64char (N.shiftr a 2)
      :: url64char (N.lor (N.shiftl (N.land a 3) 4) (N.shiftr b 4))
      :: url64char (N.lor (N.shiftl (N.land b 15) 2) (N.shiftr c 6))
      :: url64char (N.land c 63)
      :: base64url_nopad rest
  end.

(** [base64url(SHA256(verifier))] with no padding. *)
Definition pkce_challenge (verifier : string) : string :=
  string_of_bytes (base64url_nopad (sha256 (bytes_of_string verifier))).

Definition pkce_verifier (tok : bytes) : string :=
  string_of_bytes (base64url_nopad tok).

(** A character of the URL-safe alphabet. *)
Definition url_char (ch : byte) : bool :=
  existsb (Byte.eqb ch) (bytes_of_string base64url_alphabet).

Definition below (n : nat) : list N := List.map N.of_nat (seq 0 n).

(** The four ways a sextet is cut out of one or two bytes. *)
Definition sextet_hi (a : N) : N := N.shiftr a 2.
Definition sextet_mid1 (a b : N) : N := N.lor (N.shiftl (N.land a 3) 4) (N.shiftr b 4).
Definition sextet_mid2 (b c : N) : N := N.lor (N.shiftl (N.land b 15) 2) (N.shiftr c 6).
Definition sextet_lo (c : N) : N := N.land c 63.

(** A sextet gives a character of the URL-safe alphabet, the one the
    translated standard character is. *)
Definition good_sextet (i : N) : bool :=
  ((i <? 64)%N
   && Byte.eqb (urlsafe_encode_translation (b64char i)) (url64char i)
   && url_char (url64char i))%bool.

(** The number of [=] that [b64encode] appends. *)
Fixpoint pads_needed (s : bytes) : nat :=
  match s with
  | [] => 0
  | [_] => 2
  | [_; _] => 1
  | _ :: _ :: _ :: rest => pads_needed rest
  end.

(** A text without a dot. *)
Definition dot_free (s : string) : bool :=
  forallb (fun c => negb (Ascii.eqb c "."%char)) (list_ascii_of_string s).

(** ** Operations on Python values *)

(** An environment variable or optional argument: [None] or a [str]. *)
Definition of_opt (o : option string) : pyval :=
  match o with
  | Some s => PStr s
  | None => PNone
  end.

(** [str(o)], as an f-string formats it. *)
Definition fmt_opt (o : option string) : string :=
  match o with
  | Some s => s
  | None => "None"
  end.

(** Truth value testing ([if v], [not v], [a or b]). *)
Definition truthy (v : pyval) : bool :=
  match v with
  | PNone => false
  | PBool b => b
  | PInt z => negb (z =? 0)%Z
  | PFloat (Ffin m _) => negb (m =? 0)%Z
  | PFloat _ => true
  | PStr s => negb (s =? "")
  | PList l => match l with [] => false | _ => true end
  | PDict d => match d with [] => false | _ => true end
  end.

Fixpoint assoc (key : string) (items : list (string * pyval)) : option pyval :=
  match items with
  | [] => None
  | (k, v) :: rest => if k =? key then Some v else assoc key rest
  end.

(** [obj.get(key, default)]; only a [dict] has the method. *)
Definition py_get (obj : pyval) (key : string) (default : pyval) : res pyval :=
  match obj with
  | PDict items =>
      match assoc key items with
      | Some v => Ok v
      | None => Ok default
      end
  | _ => Raise (AttributeError "object has no attribute 'get'")
  end.

(** [v == "text"] for a string literal. *)
Definition eq_str (v : pyval) (text : string) : bool :=
  match v with
  | PStr s => s =? text
  | _ => false
  end.

(** [len(v)] *)
Definition py_len (v : pyval) : res nat :=
  match v with
  | PStr s => Ok (String.length s)
  | PList l => Ok (List.length l)
  | PDict d => Ok (List.length d)
  | _ => Raise (TypeError "object has no len()")
  end.

(** [v[:n]]: strings and lists can be sliced, nothing else can. *)
Definition py_slice (v : pyval) (n : nat) : res pyval :=
  match v with
  | PStr s => Ok (PStr (String.substring 0 n s))
  | PList l => Ok (PList (firstn n l))
  | _ => Raise (TypeError "object is not subscriptable by a slice")
  end.

(** [result.get("code") or result.get("authData", {}).get("code")] *)
Definition code_of (result : pyval) : res pyval :=
  res_bind (py_get result "code" PNone) (fun c =>
  if truthy c then Ok c
  else res_bind (py_get result "authData" (PDict [])) (fun auth_data =>
       py_get auth_data "code" PNone)).

(** [sep.join(parts)] and [s.split(".")] *)
Definition join (sep : string) (parts : list string) : string :=
  String.concat sep parts.

Fixpoint split_dot (s : string) : list string :=
  match s with
  | EmptyString => [EmptyString]
  | String c rest =>
      if Ascii.eqb c "."%char then EmptyString :: split_dot rest
      else match split_dot rest with
           | [] => [String c EmptyString]
           | seg :: segs => String c seg :: segs
           end
  end.

(** ["=" * k] *)
Fixpoint equals (k : nat) : string :=
  match k with
  | O => EmptyString
  | S k' => String "="%char (equals k')
  end.

(** [s.upper()] on the ASCII letters; the driver applies it to the keys of
    [AGENTS] only, which are ASCII. *)
Definition upper_char (c : ascii) : ascii :=
  let n := N_of_ascii c in
  if ((97 <=? n) && (n <=? 122))%N%bool then ascii_of_N (n - 32) else c.

Fixpoint upper (s : string) : string :=
  match s with
  | EmptyString => EmptyString
  | String c rest => String (upper_char c) (upper rest)
  end.

Definition is_dict (v : pyval) : bool :=
  match v with
  | PDict _ => true
  | _ => false
  end.

(** ** Display helpers and the claim decoder *)

(** [print_token]: what is printed does not matter, what can raise does. *)
Definition print_token (token : pyval) : res unit :=
  res_bind (py_len token) (fun n =>
  if (100 <? n)%nat
  then res_bind (py_slice token 100) (fun _ => Ok tt)
  else Ok tt).

Section ClaimDecoder.

(** [json.loads] on [bytes], from the standard library. *)
Variable json_loads : bytes -> res pyval.

(** The body of the [try] block of [decode_jwt_payload]; [None] stands for
    falling out of the [if] without returning. *)
Definition decode_jwt_try (token : pyval) : res (option pyval) :=
  match token with
  | PStr t =>
      let parts := split_dot t in
      if (2 <=? List.length parts)%nat then
        let payload := nth 1 parts EmptyString in
        let payload := (payload ++ equals (4 - String.length payload mod 4))%string in
        res_bind (urlsafe_b64decode payload) (fun decoded =>
        res_bind (json_loads decoded) (fun v => Ok (Some v)))
      else Ok None
  | _ => Raise (AttributeError "object has no attribute 'split'")
  end.

(** [decode_jwt_payload]: whatever the [try] block raises is swallowed. *)
Definition decode_jwt_payload (token : pyval) : pyval :=
  match decode_jwt_try token with
  | Ok (Some v) => v
  | Ok None => PDict []
  | Raise _ => PDict []
  end.

(** [print_jwt_claims]: the three [claims.get] calls need a [dict]. *)
Definition print_jwt_claims (token : pyval) : res pyval :=
  let claims := decode_jwt_payload token in
  res_bind (py_get claims "sub" (PStr "N/A")) (fun _ =>
  res_bind (py_get claims "aud" (PStr "N/A")) (fun _ =>
  res_bind (py_get claims "scope" (PStr "N/A")) (fun _ =>
  Ok claims))).

End ClaimDecoder.

(** ** Requests, responses and the observable trace *)

(** The body given to [client.post]: [data=...] (a form) or [json=...]. *)
Inductive body : Type :=
| Form (data : list (string * pyval))
| Json (payload : pyval).

Record request : Type := mk_request {
  url : string;
  content : body;
  headers : list (string * string)
}.

(** What the script looks at in an [httpx.Response]: the status code, the body
    as text (quoted in error messages only) and the outcome of
    [response.json()]. *)
Record response : Type := mk_response {
  status_code : Z;
  text : string;
  json : res pyval
}.

(** [json.dumps(payload, allow_nan=False)], the way httpx (0.28) encodes a
    [json=...] body before it sends anything: a float that is not finite is
    refused.  The values at hand come from [response.json()], so nothing else
    can be refused. *)
Fixpoint json_compliant (v : pyval) : bool :=
  match v with
  | PFloat (Ffin _ _) => true
  | PFloat _ => false
  | PList l => forallb json_compliant l
  | PDict items => forallb (fun kv => json_compliant (snd kv)) items
  | _ => true
  end.

(** Building the request; a [data=...] form takes any value ([str] of it). *)
Definition encode_body (b : body) : res unit :=
  match b with
  | Form _ => Ok tt
  | Json payload =>
      if json_compliant payload then Ok tt
      else Raise (ValueError (Text "Out of range float values are not JSON compliant"))
  end.

(** What a run does that can be seen from outside: the requests, each with the
    number of the [AsyncClient] it goes through, the banners of [print_header]
    and the three report lines of [main]. *)
Inductive event : Type :=
| Post (client : nat) (r : request)
| Header (title : string)
| Skip (agent_key : string)
| Error (agent_key : string) (e : exn)
| Fatal (e : exn).

(** One worker entry of [AGENTS]. *)
Record agent_cfg : Type := mk_agent {
  agent_id : option string;
  agent_secret : option string;
  scopes : list string;
  audience : string
}.

(** [not v] for an environment variable. *)
Definition missing (o : option string) : bool := negb (truthy (of_opt o)).

(** Field of a form body. *)
Definition form_field (key : string) (r : request) : option pyval :=
  match content r with
  | Form data => assoc key data
  | Json _ => None
  end.

Definition header_field (key : string) (r : request) : option string :=
  (fix find (l : list (string * string)) : option string :=
     match l with
     | [] => None
     | (k, v) :: rest => if k =? key then Some v else find rest
     end) (headers r).

Definition exchange_grant : string :=
  "urn:ietf:params:oauth:grant-type:token-exchange".
Definition access_token_type : string :=
  "urn:ietf:params:oauth:token-type:access_token".

(** The requests of a trace, in order. *)
Fixpoint posts (evs : list event) : list request :=
  match evs with
  | [] => []
  | Post _ r :: rest => r :: posts rest
  | _ :: rest => posts rest
  end.

(** ** Test doubles

    A provider that answers from a script, an environment, and a reader for a
    fragment of JSON.  They make the statements below executable on concrete
    runs. *)

(** The provider's state is the list of replies still to give; a reply is
    given to whatever request comes next. *)
Definition scripted (script : list (res response)) (client : nat) (r : request)
  : list (res response) * res response :=
  match script with
  | [] => ([], Raise (TransportError "no reply left"))
  | reply :: rest => (rest, reply)
  end.

(** A successful response with a JSON object as its body. *)
Definition ok_json (items : list (string * pyval)) : res response :=
  Ok (mk_response 200 "" (Ok (PDict items))).

(** An environment with credentials for the orchestrator, the HR agent and the
    booking agent, and none for the two other workers. *)
Definition demo_env (key : string) : option string :=
  if key =? "ORCHESTRATOR_CLIENT_ID" then Some "orch-app"
  else if key =? "ORCHESTRATOR_CLIENT_SECRET" then Some "orch-app-secret"
  else if key =? "ORCHESTRATOR_AGENT_ID" then Some "orch-agent"
  else if key =? "ORCHESTRATOR_AGENT_SECRET" then Some "orch-agent-secret"
  else if key =? "TOKEN_EXCHANGER_CLIENT_ID" then Some "exchanger-app"
  else if key =? "TOKEN_EXCHANGER_CLIENT_SECRET" then Some "exchanger-app-secret"
  else if key =? "HR_AGENT_ID" then Some "hr-id"
  else if key =? "HR_AGENT_SECRET" then Some "hr-secret"
  else if key =? "BOOKING_AGENT_ID" then Some "booking-id"
  else if key =? "BOOKING_AGENT_SECRET" then Some "booking-secret"
  else None.

Definition demo_entropy (i : nat) : byte := byte_of_N (N.of_nat (7 * i + 3)).

(** A run in which the orchestrator authenticates in three steps, the HR agent
    gets its code directly from step 1 and has its token exchanged, and the
    booking agent cannot reach the provider. *)
Definition demo_script : list (res response) :=
  [ ok_json [("flowId", PStr "f1"); ("flowStatus", PStr "INCOMPLETE")];
    ok_json [("code", PStr "c1"); ("flowStatus", PStr "SUCCESS_COMPLETED")];
    ok_json [("access_token", PStr "orch-token")];
    ok_json [("flowStatus", PStr "SUCCESS_COMPLETED");
             ("authData", PDict [("code", PStr "c2")])];
    ok_json [("access_token", PStr "hr-token")];
    ok_json [("access_token", PStr "hr-delegated")];
    Raise (TransportError "connection refused") ].

(** The two replies of a flow whose first step already yields the code. *)
Definition direct_script : list (res response) :=
  [ ok_json [("flowStatus", PStr "SUCCESS_COMPLETED");
             ("authData", PDict [("code", PStr "c2")])];
    ok_json [("access_token", PStr "hr-token")] ].



(** The entropy bytes 0, 1, 2, ... *)
Definition counting_entropy (i : nat) : byte := byte_of_N (N.of_nat i).

(** A run in which the HR agent cannot reach the provider and the booking
    agent, two turns later, goes through all the steps. *)
Definition isolation_script : list (res response) :=
  [ ok_json [("flowId", PStr "f1"); ("flowStatus", PStr "INCOMPLETE")];
    ok_json [("code", PStr "c1"); ("flowStatus", PStr "SUCCESS_COMPLETED")];
    ok_json [("access_token", PStr "orch-token")];
    Raise (TransportError "connection refused");
    ok_json [("flowId", PStr "f2"); ("flowStatus", PStr "INCOMPLETE")];
    ok_json [("code", PStr "c3"); ("flowStatus", PStr "SUCCESS_COMPLETED")];
    ok_json [("access_token", PStr "booking-token")];
    ok_json [("access_token", PStr "booking-delegated")] ].

Definition booking_cfg : agent_cfg :=
  mk_agent (Some "booking-id") (Some "booking-secret")
           ["booking:read"; "booking:write"] "onboarding-api".

Definition hr_cfg : agent_cfg :=
  mk_agent (Some "hr-id") (Some "hr-secret") ["hr:read"; "hr:write"] "onboarding-api".

Definition it_cfg : agent_cfg :=
  mk_agent None None ["it:read"; "it:write"] "onboarding-api".


(** A flow whose authentication step is answered without a code. *)
Definition no_code_script : list (res response) :=
  [ ok_json [("flowId", PStr "f1"); ("flowStatus", PStr "INCOMPLETE")];
    ok_json [("flowStatus", PStr "FAIL_INCOMPLETE")] ].

(** The three replies of a flow that goes through every step. *)
Definition three_step_script : list (res response) :=
  [ ok_json [("flowId", PStr "f1"); ("flowStatus", PStr "INCOMPLETE")];
    ok_json [("code", PStr "c1"); ("flowStatus", PStr "SUCCESS_COMPLETED")];
    ok_json [("access_token", PStr "orch-token")] ].

(** The replies of a turn of the HR agent: the direct code, the agent's token
    and the delegated token. *)
Definition hr_turn_script : list (res response) :=
  [ ok_json [("flowStatus", PStr "SUCCESS_COMPLETED");
             ("authData", PDict [("code", PStr "c2")])];
    ok_json [("access_token", PStr "hr-token")];
    ok_json [("access_token", PStr "hr-delegated")] ].

(** *** A reader for a fragment of JSON

    Objects, arrays, strings without escapes, integers, [true], [false] and
    [null], with white space between tokens.  A text outside the fragment is
    refused. *)
Module BasicJson.

Definition is_ws (c : ascii) : bool :=
  let n := N_of_ascii c in
  ((n =? 32) || (n =? 9) || (n =? 10) || (n =? 13))%N%bool.

Definition digit (c : ascii) : option Z :=
  let n := N_of_ascii c in
  if ((48 <=? n) && (n <=? 57))%N%bool then Some (Z.of_N (n - 48)) else None.

Fixpoint skip_ws (s : list ascii) : list ascii :=
  match s with
  | c :: rest => if is_ws c then skip_ws rest else s
  | [] => []
  end.

(** The characters of a string up to its closing quote. *)
Fixpoint read_string (s : list ascii) : option (string * list ascii) :=
  match s with
  | [] => None
  | c :: rest =>
      if Ascii.eqb c (ascii_of_N 34) then Some (EmptyString, rest)
      else if Ascii.eqb c (ascii_of_N 92) then None
      else if (N_of_ascii c <? 32)%N then None
      else match read_string rest with
           | Some (str, rest') => Some (String c str, rest')
           | None => None
           end
  end.

Fixpoint read_digits (acc : Z) (s : list ascii) : Z * list ascii :=
  match s with
  | c :: rest =>
      match digit c with
      | Some d => read_digits (10 * acc + d) rest
      | None => (acc, s)
      end
  | [] => (acc, s)
  end.

(** An integer: digits without a leading zero, not followed by a fraction
    or an exponent. *)
Definition read_int (s : list ascii) : option (Z * list ascii) :=
  match s with
  | c :: rest =>
      match digit c with
      | Some d =>
          let (n, rest') := if (d =? 0)%Z then (0%Z, rest) else read_digits d rest in
          match rest' with
          | c' :: _ =>
              if (Ascii.eqb c' "."%char || Ascii.eqb c' "e"%char || Ascii.eqb c' "E"%char)%bool
              then None else Some (n, rest')
          | [] => Some (n, rest')
          end
      | None => None
      end
  | [] => None
  end.

Fixpoint strip_prefix (p s : list ascii) : option (list ascii) :=
  match p, s with
  | [], _ => Some s
  | a :: p', b :: s' => if Ascii.eqb a b then strip_prefix p' s' else None
  | _ :: _, [] => None
  end.

(** [dict[key] = v] *)
Fixpoint dict_set (key : string) (v : pyval) (items : list (string * pyval))
  : list (string * pyval) :=
  match items with
  | [] => [(key, v)]
  | (k, old) :: rest =>
      if k =? key then (k, v) :: rest else (k, old) :: dict_set key v rest
  end.

Inductive frame : Type :=
| InList (done : list pyval)
| InDict (done : list (string * pyval)) (key : string).

(** A value has just been read: put it into the enclosing container and
    go on after it, or finish. *)
Inductive step : Type :=
| Finished (v : pyval) (rest : list ascii)
| Next (stack : list frame) (rest : list ascii)
| Refused.

Definition read_key (s : list ascii) : option (string * list ascii) :=
  match skip_ws s with
  | c :: rest =>
      if Ascii.eqb c (ascii_of_N 34) then
        match read_string rest with
        | Some (key, rest') =>
            match skip_ws rest' with
            | c' :: rest'' => if Ascii.eqb c' ":"%char then Some (key, rest'') else None
            | [] => None
            end
        | None => None
        end
      else None
  | [] => None
  end.

Fixpoint close (fuel : nat) (v : pyval) (stack : list frame) (s : list ascii) : step :=
  match stack with
  | [] => Finished v s
  | InList done :: outer =>
      match skip_ws s with
      | c :: rest =>
          if Ascii.eqb c ","%char then Next (InList (done ++ [v]) :: outer) rest
          else if Ascii.eqb c "]"%char then
            match fuel with
            | O => Refused
            | S fuel' => close fuel' (PList (done ++ [v])) outer rest
            end
          else Refused
      | [] => Refused
      end
  | InDict done key :: outer =>
      match skip_ws s with
      | c :: rest =>
          if Ascii.eqb c ","%char then
            match read_key rest with
            | Some (key', rest') => Next (InDict (dict_set key v done) key' :: outer) rest'
            | None => Refused
            end
          else if Ascii.eqb c "}"%char then
            match fuel with
            | O => Refused
            | S fuel' => close fuel' (PDict (dict_set key v done)) outer rest
            end
          else Refused
      | [] => Refused
      end
  end.

(** Read the value that starts at [s], inside the containers of [stack]. *)
Fixpoint value (fuel : nat) (stack : list frame) (s : list ascii) : option (pyval * list ascii) :=
  match fuel with
  | O => None
  | S fuel' =>
      let continue (st : step) :=
        match st with
        | Finished v rest => Some (v, rest)
        | Next stack' rest => value fuel' stack' rest
        | Refused => None
        end in
      let depth := S (List.length stack) in
      match skip_ws s with
      | [] => None
      | c :: rest =>
          if Ascii.eqb c "["%char then
            match skip_ws rest with
            | c' :: rest' =>
                if Ascii.eqb c' "]"%char then continue (close depth (PList []) stack rest')
                else value fuel' (InList [] :: stack) rest
            | [] => None
            end
          else if Ascii.eqb c "{"%char then
            match skip_ws rest with
            | c' :: rest' =>
                if Ascii.eqb c' "}"%char then continue (close depth (PDict []) stack rest')
                else match read_key rest with
                     | Some (key, rest'') => value fuel' (InDict [] key :: stack) rest''
                     | None => None
                     end
            | [] => None
            end
          else if Ascii.eqb c (ascii_of_N 34) then
            match read_string rest with
            | Some (str, rest') => continue (close depth (PStr str) stack rest')
            | None => None
            end
          else if Ascii.eqb c "-"%char then
            match read_int rest with
            | Some (n, rest') => continue (close depth (PInt (- n)) stack rest')
            | None => None
            end
          else
            match read_int (c :: rest) with
            | Some (n, rest') => continue (close depth (PInt n) stack rest')
            | None =>
                match strip_prefix (list_ascii_of_string "true") (c :: rest) with
                | Some rest' => continue (close depth (PBool true) stack rest')
                | None =>
                match strip_prefix (list_ascii_of_string "false") (c :: rest) with
                | Some rest' => continue (close depth (PBool false) stack rest')
                | None =>
                match strip_prefix (list_ascii_of_string "null") (c :: rest) with
                | Some rest' => continue (close depth PNone stack rest')
                | None => None
                end end end
            end
      end
  end.

Definition loads (b : bytes) : res pyval :=
  match decode_ascii b with
  | Raise _ => Raise JSONDecodeError
  | Ok text =>
      let s := list_ascii_of_string text in
      match value (S (List.length s)) [] s with
      | Some (v, rest) =>
          match skip_ws rest with
          | [] => Ok v
          | _ => Raise JSONDecodeError
          end
      | None => Raise JSONDecodeError
      end
  end.

End BasicJson.

(** ** The engine *)

Section Engine.

(** [json.loads], used by the claim decoder. *)
Variable json_loads : bytes -> res pyval.

(** [os.getenv], after [load_dotenv()]. *)
Variable getenv : string -> option string.

(** The identity provider seen through [httpx]: its state, and what it does
    with a request coming through a given client.  [Raise] is a transport
    failure (connection error, timeout). *)
Variable PState : Type.
Variable serve : PState -> nat -> request -> PState * res response.

(** *** Configuration from the environment *)

Definition getenv_default (key default : string) : string :=
  match getenv key with
  | Some v => v
  | None => default
  end.

Definition BASE_URL : string := getenv_default "ASGARDEO_BASE_URL" "https://localhost:9443".
Definition AUTHORIZE_URL : string := (BASE_URL ++ "/oauth2/authorize")%string.
Definition AUTHN_URL : string := (BASE_URL ++ "/oauth2/authn")%string.
Definition TOKEN_URL : string := (BASE_URL ++ "/oauth2/token")%string.
Definition CALLBACK_URL : string :=
  getenv_default "APP_CALLBACK_URL" "http://localhost:8000/callback".

Definition TOKEN_EXCHANGER_CLIENT_ID := getenv "TOKEN_EXCHANGER_CLIENT_ID".
Definition TOKEN_EXCHANGER_CLIENT_SECRET := getenv "TOKEN_EXCHANGER_CLIENT_SECRET".
Definition ORCHESTRATOR_CLIENT_ID := getenv "ORCHESTRATOR_CLIENT_ID".
Definition ORCHESTRATOR_CLIENT_SECRET := getenv "ORCHESTRATOR_CLIENT_SECRET".
Definition ORCHESTRATOR_AGENT_ID := getenv "ORCHESTRATOR_AGENT_ID".
Definition ORCHESTRATOR_AGENT_SECRET := getenv "ORCHESTRATOR_AGENT_SECRET".

Definition AGENTS : list (string * agent_cfg) :=
  [ ("hr_agent",
     mk_agent (getenv "HR_AGENT_ID") (getenv "HR_AGENT_SECRET")
              ["hr:read"; "hr:write"] "onboarding-api");
    ("it_agent",
     mk_agent (getenv "IT_AGENT_ID") (getenv "IT_AGENT_SECRET")
              ["it:read"; "it:write"] "onboarding-api");
    ("approval_agent",
     mk_agent (getenv "APPROVAL_AGENT_ID") (getenv "APPROVAL_AGENT_SECRET")
              ["approval:read"; "approval:write"] "onboarding-api");
    ("booking_agent",
     mk_agent (getenv "BOOKING_AGENT_ID") (getenv "BOOKING_AGENT_SECRET")
              ["booking:read"; "booking:write"] "onboarding-api") ].

(** *** The monad of the script

    A computation starts in a [world] (the provider, the entropy still to be
    drawn, the number of clients opened so far) and ends with a result or an
    exception, a new world, and the events it produced. *)

Record world : Type := mk_world {
  provider : PState;
  entropy : nat -> byte;
  clients : nat
}.

Record out (A : Type) : Type := mk_out {
  result : res A;
  final : world;
  log : list event
}.

Definition M (A : Type) : Type := world -> out A.

Definition ret {A} (a : A) : M A := fun w => mk_out (Ok a) w [].

Definition bind {A B} (m : M A) (k : A -> M B) : M B :=
  fun w =>
    let o := m w in
    match result o with
    | Ok a =>
        let o' := k a (final o) in
        mk_out (result o') (final o') (log o ++ log o')
    | Raise e => mk_out (Raise e) (final o) (log o)
    end.

Definition lift {A} (r : res A) : M A := fun w => mk_out r w [].

Definition emit (e : event) : M unit := fun w => mk_out (Ok tt) w [e].

(** [try: m  except Exception as e: handler(e)] *)
Definition try_except {A} (m : M A) (handler : exn -> M A) : M A :=
  fun w =>
    let o := m w in
    match result o with
    | Ok a => o
    | Raise e =>
        let o' := handler e (final o) in
        mk_out (result o') (final o') (log o ++ log o')
    end.

(** [httpx.AsyncClient(...)]: a client with a cookie jar of its own.  The
    constructor is taken to succeed (it reads proxy settings from the
    environment and refuses malformed ones; that is outside the model). *)
Definition new_client : M nat :=
  fun w => mk_out (Ok (clients w)) (mk_world (provider w) (entropy w) (S (clients w))) [].

(** [await client.post(url, ...)]: when the body cannot be encoded, the call
    raises and nothing is sent. *)
Definition post (client : nat) (r : request) : M response :=
  fun w =>
    match encode_body (content r) with
    | Raise e => mk_out (Raise e) w []
    | Ok _ =>
        let (p, reply) := serve (provider w) client r in
        mk_out reply (mk_world p (entropy w) (clients w)) [Post client r]
    end.

(** [secrets.token_bytes(n)] *)
Definition token_bytes (n : nat) : M bytes :=
  fun w =>
    mk_out (Ok (List.map (entropy w) (seq 0 n)))
           (mk_world (provider w) (fun i => entropy w (n + i)%nat) (clients w)) [].

Notation "x <- m ;; k" := (bind m (fun x => k))
  (at level 61, m at next level, right associativity).
Notation "m ;;; k" := (bind m (fun _ => k))
  (at level 61, right associativity).

(** *** Utilities *)

Definition generate_pkce : M (string * string) :=
  tok <- token_bytes 64 ;;
  lift (generate_pkce_from tok).

Definition print_header (title : string) : M unit := emit (Header title).

(** [b64.b64encode(f"{client_id}:{client_secret}".encode()).decode()] *)
Definition basic_auth (client_id client_secret : option string) : string :=
  string_of_bytes
    (b64encode (encode_utf8 (fmt_opt client_id ++ ":" ++ fmt_opt client_secret)%string)).

(** *** Step 1: [step1_get_flow_id] *)

Definition step1_request (client_id client_secret : option string)
           (scopes : list string) (code_challenge : string) : request :=
  mk_request AUTHORIZE_URL
    (Form [ ("client_id", of_opt client_id);
            ("response_type", PStr "code");
            ("redirect_uri", PStr CALLBACK_URL);
            ("scope", PStr (join " " scopes));
            ("response_mode", PStr "direct");
            ("code_challenge", PStr code_challenge);
            ("code_challenge_method", PStr "S256") ])
    [ ("Content-Type", "application/x-www-form-urlencoded");
      ("Accept", "application/json");
      ("Authorization", ("Basic " ++ basic_auth client_id client_secret)%string) ].

(** The end of step 1, once no direct code was found. *)
Definition step1_flow_id (result flow_id : pyval) : res (pyval * pyval) :=
  if negb (truthy flow_id)
  then Raise (ValueError (TextValue "flowId not found in response: " result))
  else Ok (flow_id, PNone).

(** What step 1 makes of the response: [(flow_id, None)] or
    [(None, direct_code)]. *)
Definition step1_result (resp : response) : res (pyval * pyval) :=
  res_bind (json resp) (fun result =>
  res_bind (py_get result "flowId" PNone) (fun flow_id =>
  res_bind (py_get result "flowStatus" PNone) (fun flow_status =>
  if eq_str flow_status "SUCCESS_COMPLETED" then
    res_bind (code_of result) (fun direct_code =>
    if truthy direct_code then Ok (PNone, direct_code)
    else step1_flow_id result flow_id)
  else step1_flow_id result flow_id))).

Definition step1_get_flow_id (client : nat) (client_id client_secret : option string)
           (scopes : list string) (code_challenge : string) : M (pyval * pyval) :=
  resp <- post client (step1_request client_id client_secret scopes code_challenge) ;;
  lift (step1_result resp).

(** *** Step 2: [step2_authenticate_agent] *)

Definition step2_request (flow_id : pyval) (agent_id agent_secret : option string)
  : request :=
  mk_request AUTHN_URL
    (Json (PDict
       [ ("flowId", flow_id);
         ("selectedAuthenticator",
          PDict [ ("authenticatorId", PStr "QmFzaWNBdXRoZW50aWNhdG9yOkxPQ0FM");
                  ("params", PDict [ ("username", of_opt agent_id);
                                     ("password", of_opt agent_secret) ]) ]) ]))
    [ ("Content-Type", "application/json") ].

Definition step2_result (resp : response) : res pyval :=
  res_bind (json resp) (fun result =>
  res_bind (py_get result "flowStatus" PNone) (fun flow_status =>
  res_bind (code_of result) (fun code =>
  if negb (truthy code)
  then Raise (ValueError (TextValue "Authorization code not found in response: "
                                    result))
  else Ok code))).

Definition step2_authenticate_agent (client : nat) (flow_id : pyval)
           (agent_id agent_secret : option string) : M pyval :=
  resp <- post client (step2_request flow_id agent_id agent_secret) ;;
  lift (step2_result resp).

(** *** Step 3: [step3_exchange_code_for_token] *)

Definition step3_request (client_id client_secret : option string)
           (code : pyval) (code_verifier : string) : request :=
  mk_request TOKEN_URL
    (Form [ ("grant_type", PStr "authorization_code");
            ("client_id", of_opt client_id);
            ("client_secret", of_opt client_secret);
            ("code", code);
            ("code_verifier", PStr code_verifier);
            ("redirect_uri", PStr CALLBACK_URL) ])
    [ ("Content-Type", "application/x-www-form-urlencoded") ].

(** After the request: the status check, then [result.get("access_token")];
    the progress line prints [access_token[:60]]. *)
Definition step3_result (resp : response) : res pyval :=
  if negb (status_code resp =? 200)%Z
  then Raise (ValueError (TextStatus "Token exchange failed: "
                                     (status_code resp) (text resp)))
  else
    res_bind (json resp) (fun result =>
    res_bind (py_get result "access_token" PNone) (fun access_token =>
    res_bind (py_slice access_token 60) (fun _ =>
    Ok access_token))).

Definition step3_exchange_code_for_token (client : nat)
           (client_id client_secret : option string)
           (code : pyval) (code_verifier : string) : M pyval :=
  resp <- post client (step3_request client_id client_secret code code_verifier) ;;
  lift (step3_result resp).

(** *** The three-step flow: [get_actor_token_3step]

    The [client] argument of the script is not used by the function: every
    request of the flow goes through a client opened for it. *)

Definition get_actor_token_3step (client : nat)
           (agent_id agent_secret : option string)
           (app_client_id app_client_secret : option string)
           (scopes : option (list string)) (label : string) : M pyval :=
  let scopes := match scopes with
                | None => ["openid"]
                | Some l => l
                end in
  print_header ("3-STEP ACTOR TOKEN FLOW: " ++ label)%string ;;;
  pkce <- generate_pkce ;;
  let (code_verifier, code_challenge) := (pkce : string * string) in
  fresh_client <- new_client ;;
  found <- step1_get_flow_id fresh_client app_client_id app_client_secret
                             scopes code_challenge ;;
  let (flow_id, direct_code) := (found : pyval * pyval) in
  code <- (if truthy direct_code
           then ret direct_code
           else step2_authenticate_agent fresh_client flow_id agent_id agent_secret) ;;
  actor_token <- step3_exchange_code_for_token fresh_client
                   app_client_id app_client_secret code code_verifier ;;
  lift (print_token actor_token) ;;;
  lift (print_jwt_claims json_loads actor_token) ;;;
  ret actor_token.

(** *** Token exchange: [token_exchange_downscope] *)

Definition exchange_request (subject_token actor_token : pyval)
           (target_scopes : list string) : request :=
  mk_request TOKEN_URL
    (Form [ ("grant_type", PStr exchange_grant);
            ("subject_token", subject_token);
            ("subject_token_type", PStr access_token_type);
            ("actor_token", actor_token);
            ("actor_token_type", PStr access_token_type);
            ("scope", PStr (join " " target_scopes)) ])
    [ ("Content-Type", "application/x-www-form-urlencoded");
      ("Authorization",
       ("Basic " ++ basic_auth TOKEN_EXCHANGER_CLIENT_ID
                               TOKEN_EXCHANGER_CLIENT_SECRET)%string) ].

(** After the request: the status check, [result.get("access_token")], then
    the two display calls. *)
Definition exchange_result (resp : response) : res pyval :=
  if negb (status_code resp =? 200)%Z
  then Raise (ValueError (TextStatus "Token exchange failed: "
                                     (status_code resp) (text resp)))
  else
    res_bind (json resp) (fun result =>
    res_bind (py_get result "access_token" PNone) (fun exchanged_token =>
    res_bind (print_token exchanged_token) (fun _ =>
    res_bind (print_jwt_claims json_loads exchanged_token) (fun _ =>
    Ok exchanged_token)))).

Definition token_exchange_downscope (client : nat)
           (subject_token actor_token : pyval)
           (target_scopes : list string) (label : string) : M pyval :=
  resp <- post client (exchange_request subject_token actor_token target_scopes) ;;
  lift (exchange_result resp).

(** *** The driver: [main] *)

(** The [try] block of one turn of the worker loop. *)
Definition worker_try (client : nat) (orchestrator_actor_token : pyval)
           (agent_key : string) (cfg : agent_cfg) : M unit :=
  agent_actor_token <-
    get_actor_token_3step client (agent_id cfg) (agent_secret cfg)
      TOKEN_EXCHANGER_CLIENT_ID TOKEN_EXCHANGER_CLIENT_SECRET
      (Some ["openid"]) (upper agent_key) ;;
  print_header ("TOKEN EXCHANGE (DOWNSCOPE): " ++ upper agent_key)%string ;;;
  exchanged_token <-
    token_exchange_downscope client orchestrator_actor_token agent_actor_token
      (scopes cfg) (upper agent_key) ;;
  ret tt.

(** One turn of [for agent_key, agent_cfg in AGENTS.items()]. *)
Definition worker_turn (client : nat) (orchestrator_actor_token : pyval)
           (entry : string * agent_cfg) : M unit :=
  let (agent_key, cfg) := entry in
  if missing (agent_id cfg) || missing (agent_secret cfg)
  then emit (Skip agent_key)
  else try_except (worker_try client orchestrator_actor_token agent_key cfg)
                  (fun e => emit (Error agent_key e)).

Fixpoint worker_loop (client : nat) (orchestrator_actor_token : pyval)
         (agents : list (string * agent_cfg)) : M unit :=
  match agents with
  | [] => ret tt
  | entry :: rest =>
      worker_turn client orchestrator_actor_token entry ;;;
      worker_loop client orchestrator_actor_token rest
  end.

(** Phase 1: the orchestrator's own actor token. *)
Definition orchestrator_flow (client : nat) : M pyval :=
  get_actor_token_3step client ORCHESTRATOR_AGENT_ID ORCHESTRATOR_AGENT_SECRET
    ORCHESTRATOR_CLIENT_ID ORCHESTRATOR_CLIENT_SECRET (Some ["openid"]) "ORCHESTRATOR".

(** [None] stands for the [return] of the [except] clause. *)
Definition main : M unit :=
  print_header "A2A TOKEN FLOW DEMONSTRATION" ;;;
  client <- new_client ;;
  phase1 <- try_except
              (orchestrator_actor_token <- orchestrator_flow client ;;
               ret (Some orchestrator_actor_token))
              (fun e => emit (Fatal e) ;;; ret None) ;;
  match phase1 with
  | None => ret tt
  | Some orchestrator_actor_token =>
      worker_loop client orchestrator_actor_token AGENTS ;;;
      print_header "TOKEN FLOW SUMMARY"
  end.


(** *** Vocabulary of the statements *)

(** What the provider answers to a request sent in world [w], and the world
    after the request. *)
Definition reply_to (w : world) (client : nat) (r : request) : res response :=
  snd (serve (provider w) client r).
Definition after_post (w : world) (client : nat) (r : request) : world :=
  mk_world (fst (serve (provider w) client r)) (entropy w) (clients w).

(** The two display calls that end the flow. *)
Definition display (token : pyval) : res pyval :=
  res_bind (print_token token) (fun _ =>
  res_bind (print_jwt_claims json_loads token) (fun _ =>
  Ok token)).

(** Step 3 and the display, from the point where the code is known. *)
Definition redeem (fresh : nat) (app_id app_secret : option string)
           (code : pyval) (verifier : string) : M pyval :=
  bind (step3_exchange_code_for_token fresh app_id app_secret code verifier)
       (fun actor_token =>
          bind (lift (print_token actor_token))
               (fun _ => bind (lift (print_jwt_claims json_loads actor_token))
                              (fun _ => ret actor_token))).

(** The 64 bytes the next [generate_pkce] draws, and the pair it makes of
    them. *)
Definition drawn (w : world) : bytes := List.map (entropy w) (seq 0 64).
Definition flow_verifier (w : world) : string := pkce_verifier (drawn w).
Definition flow_challenge (w : world) : string := pkce_challenge (flow_verifier w).

(** The world after [generate_pkce] and the opening of the flow's client. *)
Definition flow_world (w : world) : world :=
  mk_world (provider w) (fun i => entropy w (64 + i)%nat) (S (clients w)).

Definition scopes_or_default (scopes : option (list string)) : list string :=
  match scopes with
  | None => ["openid"]
  | Some l => l
  end.

(** The requests of one flow: step 1, then step 3, step 2, or both. *)
Definition flow_shape (reqs : list request) (r1 : request)
           (r2 r3 : pyval -> request) : Prop :=
  reqs = [r1]
  \/ (exists c, reqs = [r1; r3 c])
  \/ (exists f, reqs = [r1; r2 f])
  \/ (exists f c, reqs = [r1; r2 f; r3 c]).

(** The [access_token] entry of a response body, when the body is an object
    that has one. *)
Definition access_token_field (resp : response) : option pyval :=
  match json resp with
  | Ok (PDict items) => assoc "access_token" items
  | _ => None
  end.

(** A token-exchange request is one whose grant type says so. *)
Definition is_exchange (r : request) : Prop :=
  form_field "grant_type" r = Some (PStr exchange_grant).

(** An authorization initiation is a request that asks for the direct
    response mode. *)
Definition is_authorize (r : request) : Prop :=
  form_field "response_mode" r = Some (PStr "direct").


(** What the claim decoder makes of a second segment: the JSON value of the
    decoded bytes, or the empty mapping. *)
Definition decoded_segment (payload : string) : pyval :=
  match urlsafe_b64decode
          (payload ++ equals (4 - String.length payload mod 4))%string with
  | Ok decoded =>
      match json_loads decoded with
      | Ok v => v
      | Raise _ => PDict []
      end
  | Raise _ => PDict []
  end.

(** A response body without a code: no truthy code at top level, and authData
    absent or an object without a truthy code. *)
Definition without_code (body : list (string * pyval)) : Prop :=
  (forall c, assoc "code" body = Some c -> truthy c = false)
  /\ (assoc "authData" body = None
      \/ exists a, assoc "authData" body = Some (PDict a)
                   /\ forall c, assoc "code" a = Some c -> truthy c = false).

(** A response body with no truthy code at top level whose authData entry is
    there but is no object ([null], a text, a number, a list). *)
Definition auth_data_not_object (body : list (string * pyval)) : Prop :=
  (forall c, assoc "code" body = Some c -> truthy c = false)
  /\ exists a, assoc "authData" body = Some a /\ is_dict a = false.

(** Values that have a length, and values that can be sliced. *)
Definition sized (v : pyval) : bool :=
  match v with
  | PStr _ | PList _ | PDict _ => true
  | _ => false
  end.

Definition sliceable (v : pyval) : bool :=
  match v with
  | PStr _ | PList _ => true
  | _ => false
  end.

(** The scope string each worker's exchange is expected to carry. *)
Definition scope_texts : list (string * string) :=
  [ ("hr_agent", "hr:read hr:write");
    ("it_agent", "it:read it:write");
    ("approval_agent", "approval:read approval:write");
    ("booking_agent", "booking:read booking:write") ].

(** The words of a text: [s.split(" ")]. *)
Fixpoint words (s : string) : list string :=
  match s with
  | EmptyString => [EmptyString]
  | String c rest =>
      if Ascii.eqb c " "%char then EmptyString :: words rest
      else match words rest with
           | [] => [String c EmptyString]
           | seg :: segs => String c seg :: segs
           end
  end.

(** [sorted(l)] on strings, by insertion. *)
Fixpoint insert_sorted (x : string) (l : list string) : list string :=
  match l with
  | [] => [x]
  | y :: rest => if String.leb x y then x :: l else y :: insert_sorted x rest
  end.

Definition sorted_strings (l : list string) : list string :=
  fold_right insert_sorted [] l.

(** The world in which the turn of worker number [i] starts. *)
Definition world_before (client : nat) (orchestrator_actor_token : pyval)
           (i : nat) (w : world) : world :=
  final (worker_loop client orchestrator_actor_token (firstn i AGENTS) w).

(** The flow a worker turn runs for its entry. *)
Definition worker_flow (client : nat) (entry : string * agent_cfg) : M pyval :=
  get_actor_token_3step client (agent_id (snd entry)) (agent_secret (snd entry))
    TOKEN_EXCHANGER_CLIENT_ID TOKEN_EXCHANGER_CLIENT_SECRET
    (Some ["openid"]) (upper (fst entry)).

(** * Properties *)

Unset Implicit Arguments.

(** ** Base64 and the PKCE pair *)

Lemma below_spec (f : N -> bool) (n : nat) :
  forallb f (below n) = true -> forall i, (i < N.of_nat n)%N -> f i = true.
Proof.
  intros Hall i Hi. rewrite forallb_forall in Hall. apply Hall.
  unfold below. apply in_map_iff. exists (N.to_nat i). split.
  - apply N2Nat.id.
  - apply in_seq. lia.
Qed.

Lemma N_of_byte_lt (b : byte) : (N_of_byte b < N.of_nat 256)%N.
Proof.
  unfold N_of_byte. pose proof (Byte.to_N_bounded b). lia.
Qed.

Lemma good_sextet_below i : (i <? 64)%N = true -> good_sextet i = true.
Proof.
  intros H. apply (below_spec good_sextet 64); [ now vm_compute | ].
  apply N.ltb_lt in H. exact H.
Qed.

Lemma sextet_hi_good a : good_sextet (sextet_hi (N_of_byte a)) = true.
Proof.
  apply good_sextet_below.
  apply (below_spec (fun x => (sextet_hi x <? 64)%N) 256); [ now vm_compute | ].
  apply N_of_byte_lt.
Qed.

Lemma sextet_lo_good a : good_sextet (sextet_lo (N_of_byte a)) = true.
Proof.
  apply good_sextet_below.
  apply (below_spec (fun x => (sextet_lo x <? 64)%N) 256); [ now vm_compute | ].
  apply N_of_byte_lt.
Qed.

Lemma sextet_mid1_good a b :
  good_sextet (sextet_mid1 (N_of_byte a) (N_of_byte b)) = true.
Proof.
  apply good_sextet_below.
  apply (below_spec (fun y => (sextet_mid1 (N_of_byte a) y <? 64)%N) 256);
    [ | apply N_of_byte_lt ].
  apply (below_spec
           (fun x => forallb (fun y => (sextet_mid1 x y <? 64)%N) (below 256)) 256);
    [ now vm_compute | apply N_of_byte_lt ].
Qed.

Lemma sextet_mid2_good a b :
  good_sextet (sextet_mid2 (N_of_byte a) (N_of_byte b)) = true.
Proof.
  apply good_sextet_below.
  apply (below_spec (fun y => (sextet_mid2 (N_of_byte a) y <? 64)%N) 256);
    [ | apply N_of_byte_lt ].
  apply (below_spec
           (fun x => forallb (fun y => (sextet_mid2 x y <? 64)%N) (below 256)) 256);
    [ now vm_compute | apply N_of_byte_lt ].
Qed.

Lemma sextet_tail1_good a :
  good_sextet (N.shiftl (N.land (N_of_byte a) 3) 4) = true.
Proof.
  apply good_sextet_below.
  apply (below_spec (fun x => (N.shiftl (N.land x 3) 4 <? 64)%N) 256);
    [ now vm_compute | apply N_of_byte_lt ].
Qed.

Lemma sextet_tail2_good a :
  good_sextet (N.shiftl (N.land (N_of_byte a) 15) 2) = true.
Proof.
  apply good_sextet_below.
  apply (below_spec (fun x => (N.shiftl (N.land x 15) 2 <? 64)%N) 256);
    [ now vm_compute | apply N_of_byte_lt ].
Qed.

Lemma good_sextet_translate i :
  good_sextet i = true -> urlsafe_encode_translation (b64char i) = url64char i.
Proof.
  unfold good_sextet. intros H.
  apply andb_prop in H as [H _]. apply andb_prop in H as [_ H].
  now apply Byte.byte_dec_bl.
Qed.

Lemma good_sextet_url i : good_sextet i = true -> url_char (url64char i) = true.
Proof.
  unfold good_sextet. intros H. now apply andb_prop in H as [_ H].
Qed.

Ltac use_sextet H :=
  let E := fresh "E" in
  pose proof H as E;
  unfold sextet_hi, sextet_mid1, sextet_mid2, sextet_lo in E;
  rewrite E; clear E.

Lemma list_ind3 (A : Type) (P : list A -> Prop) :
  P [] -> (forall a, P [a]) -> (forall a b, P [a; b]) ->
  (forall a b c rest, P rest -> P (a :: b :: c :: rest)) ->
  forall l, P l.
Proof.
  intros H0 H1 H2 H3.
  assert (Hall : forall n l, (List.length l <= n)%nat -> P l).
  { induction n as [|n IH]; intros l Hl.
    - destruct l; [ exact H0 | simpl in Hl; lia ].
    - destruct l as [|a [|b [|c rest]]]; auto.
      apply H3, IH. simpl in Hl. lia. }
  intros l. apply (Hall (List.length l)). lia.
Qed.

(** The padded URL-safe encoding is the unpadded one followed by padding. *)
Lemma urlsafe_b64encode_nopad (s : bytes) :
  exists k, urlsafe_b64encode s = base64url_nopad s ++ repeat pad_byte k.
Proof.
  induction s as [ | a | a b | a b c rest [k IH] ] using list_ind3.
  - exists 0%nat. reflexivity.
  - exists 2%nat. unfold urlsafe_b64encode. cbn [b64encode base64url_nopad List.map].
    use_sextet (good_sextet_translate _ (sextet_hi_good a)).
    use_sextet (good_sextet_translate _ (sextet_tail1_good a)).
    reflexivity.
  - exists 1%nat. unfold urlsafe_b64encode. cbn [b64encode base64url_nopad List.map].
    use_sextet (good_sextet_translate _ (sextet_hi_good a)).
    use_sextet (good_sextet_translate _ (sextet_mid1_good a b)).
    use_sextet (good_sextet_translate _ (sextet_tail2_good b)).
    reflexivity.
  - exists k. unfold urlsafe_b64encode in *.
    cbn [b64encode base64url_nopad List.map].
    use_sextet (good_sextet_translate _ (sextet_hi_good a)).
    use_sextet (good_sextet_translate _ (sextet_mid1_good a b)).
    use_sextet (good_sextet_translate _ (sextet_mid2_good b c)).
    use_sextet (good_sextet_translate _ (sextet_lo_good c)).
    rewrite IH. reflexivity.
Qed.

Lemma base64url_nopad_chars (s : bytes) :
  forallb url_char (base64url_nopad s) = true.
Proof.
  induction s as [ | a | a b | a b c rest IH ] using list_ind3;
    cbn [base64url_nopad forallb].
  - reflexivity.
  - use_sextet (good_sextet_url _ (sextet_hi_good a)).
    use_sextet (good_sextet_url _ (sextet_tail1_good a)). reflexivity.
  - use_sextet (good_sextet_url _ (sextet_hi_good a)).
    use_sextet (good_sextet_url _ (sextet_mid1_good a b)).
    use_sextet (good_sextet_url _ (sextet_tail2_good b)). reflexivity.
  - use_sextet (good_sextet_url _ (sextet_hi_good a)).
    use_sextet (good_sextet_url _ (sextet_mid1_good a b)).
    use_sextet (good_sextet_url _ (sextet_mid2_good b c)).
    use_sextet (good_sextet_url _ (sextet_lo_good c)).
    exact IH.
Qed.

Lemma url_char_plain (ch : byte) :
  url_char ch = true -> Byte.eqb ch pad_byte = false /\ is_ascii_byte ch = true.
Proof.
  destruct ch; vm_compute; intros H; try discriminate H; split; reflexivity.
Qed.

Lemma drop_while_repeat (A : Type) (p : A -> bool) (x : A) (k : nat) (l : list A) :
  p x = true -> drop_while p (repeat x k ++ l) = drop_while p l.
Proof.
  intros Hx. induction k as [|k IH]; simpl; [ reflexivity | ].
  now rewrite Hx.
Qed.

Lemma drop_while_keeps (A : Type) (p : A -> bool) (l : list A) :
  forallb (fun x => negb (p x)) l = true -> drop_while p l = l.
Proof.
  destruct l as [|x l]; simpl; [ reflexivity | ].
  intros H. apply andb_prop in H as [H _].
  now destruct (p x).
Qed.

Lemma rev_repeat_same (A : Type) (x : A) (k : nat) : rev (repeat x k) = repeat x k.
Proof.
  induction k as [|k IH]; simpl; [ reflexivity | ].
  rewrite IH. clear IH. induction k as [|k IH]; simpl; [ reflexivity | ].
  now rewrite IH.
Qed.

Lemma forallb_rev (A : Type) (p : A -> bool) (l : list A) :
  forallb p l = true -> forallb p (rev l) = true.
Proof.
  rewrite !forallb_forall. intros H x Hx. apply H. now apply in_rev.
Qed.

(** Stripping the padding of a padded encoding leaves the unpadded one. *)
Lemma rstrip_padding (body : bytes) (k : nat) :
  forallb url_char body = true ->
  rstrip [pad_byte] (body ++ repeat pad_byte k) = body.
Proof.
  intros Hbody. unfold rstrip.
  rewrite rev_app_distr, rev_repeat_same, drop_while_repeat by reflexivity.
  rewrite drop_while_keeps; [ apply rev_involutive | ].
  apply forallb_rev. rewrite forallb_forall in *. intros x Hx.
  destruct (url_char_plain x (Hbody x Hx)) as [Hpad _].
  cbn [existsb]. now rewrite Hpad.
Qed.

Lemma rstrip_urlsafe_b64encode (s : bytes) :
  rstrip [pad_byte] (urlsafe_b64encode s) = base64url_nopad s.
Proof.
  destruct (urlsafe_b64encode_nopad s) as [k ->].
  apply rstrip_padding, base64url_nopad_chars.
Qed.

Lemma byte_ascii_code (b : byte) : N_of_ascii (ascii_of_byte b) = N_of_byte b.
Proof. destruct b; reflexivity. Qed.

Lemma string_of_bytes_chars (b : bytes) :
  list_ascii_of_string (string_of_bytes b) = List.map ascii_of_byte b.
Proof. unfold string_of_bytes. apply list_ascii_of_string_of_list_ascii. Qed.

Lemma bytes_of_string_of_bytes (b : bytes) : bytes_of_string (string_of_bytes b) = b.
Proof.
  unfold bytes_of_string. rewrite string_of_bytes_chars, map_map.
  rewrite <- (map_id b) at 2. apply map_ext. intros x. apply byte_of_ascii_of_byte.
Qed.

Lemma decode_ascii_url (b : bytes) :
  forallb url_char b = true -> decode_ascii b = Ok (string_of_bytes b).
Proof.
  intros H. unfold decode_ascii.
  replace (forallb is_ascii_byte b) with true; [ reflexivity | ].
  symmetry. rewrite forallb_forall in *. intros x Hx.
  now destruct (url_char_plain x (H x Hx)).
Qed.

Lemma encode_ascii_url (b : bytes) :
  forallb url_char b = true -> encode_ascii (string_of_bytes b) = Ok b.
Proof.
  intros H. unfold encode_ascii.
  rewrite string_of_bytes_chars, bytes_of_string_of_bytes.
  replace (forallb is_ascii_char (List.map ascii_of_byte b)) with true; [ reflexivity | ].
  symmetry. rewrite forallb_forall in *. intros c Hc.
  apply in_map_iff in Hc as [x [<- Hx]].
  unfold is_ascii_char. rewrite byte_ascii_code.
  now destruct (url_char_plain x (H x Hx)).
Qed.

Lemma token_urlsafe_total (tok : bytes) : token_urlsafe tok = Ok (pkce_verifier tok).
Proof.
  unfold token_urlsafe, pkce_verifier. rewrite rstrip_urlsafe_b64encode.
  apply decode_ascii_url, base64url_nopad_chars.
Qed.

Lemma code_challenge_of_verifier (tok : bytes) :
  code_challenge_of (pkce_verifier tok) = Ok (pkce_challenge (pkce_verifier tok)).
Proof.
  unfold code_challenge_of, pkce_verifier at 1.
  rewrite encode_ascii_url by apply base64url_nopad_chars.
  cbn [res_bind]. rewrite rstrip_urlsafe_b64encode.
  unfold pkce_challenge, pkce_verifier. rewrite bytes_of_string_of_bytes.
  apply decode_ascii_url, base64url_nopad_chars.
Qed.

Lemma generate_pkce_from_total (tok : bytes) :
  generate_pkce_from tok
  = Ok (pkce_verifier tok, pkce_challenge (pkce_verifier tok)).
Proof.
  unfold generate_pkce_from.
  rewrite token_urlsafe_total. cbn [res_bind].
  rewrite code_challenge_of_verifier. reflexivity.
Qed.

(** ** The monad *)

Lemma run_bind (A B : Type) (m : M A) (k : A -> M B) (w : world) :
  bind m k w
  = match result (m w) with
    | Ok a => mk_out (result (k a (final (m w)))) (final (k a (final (m w))))
                     (log (m w) ++ log (k a (final (m w))))
    | Raise e => mk_out (Raise e) (final (m w)) (log (m w))
    end.
Proof. reflexivity. Qed.

Lemma generate_pkce_run (w : world) :
  generate_pkce w
  = mk_out (Ok (flow_verifier w, flow_challenge w))
           (mk_world (provider w) (fun i => entropy w (64 + i)%nat) (clients w)) [].
Proof.
  unfold generate_pkce. rewrite run_bind. unfold token_bytes, lift.
  cbn [result final log]. fold (drawn w). rewrite generate_pkce_from_total.
  reflexivity.
Qed.

Arguments generate_pkce : simpl never.
Arguments step1_request : simpl never.
Arguments step2_request : simpl never.
Arguments step3_request : simpl never.
Arguments exchange_request : simpl never.
Arguments step1_result : simpl never.
Arguments step2_result : simpl never.
Arguments step3_result : simpl never.
Arguments exchange_result : simpl never.
Arguments print_token : simpl never.
Arguments print_jwt_claims : simpl never.

Lemma bind_eq (A B : Type) (m : M A) (k : A -> M B) (w w' : world)
      (r : res A) (l : list event) :
  m w = mk_out r w' l ->
  bind m k w
  = match r with
    | Ok a => mk_out (result (k a w')) (final (k a w')) (l ++ log (k a w'))
    | Raise e => mk_out (Raise e) w' l
    end.
Proof. intros E. unfold bind. rewrite E. reflexivity. Qed.

Lemma post_run (client : nat) (r : request) (w : world) :
  encode_body (content r) = Ok tt ->
  post client r w = mk_out (reply_to w client r) (after_post w client r) [Post client r].
Proof.
  intros He. unfold post, reply_to, after_post. rewrite He.
  now destruct (serve (provider w) client r).
Qed.

Lemma post_refused (client : nat) (r : request) (w : world) (e : exn) :
  encode_body (content r) = Raise e ->
  post client r w = mk_out (Raise e) w [].
Proof. intros He. unfold post. now rewrite He. Qed.

(** A request followed by a computation without effects. *)
Lemma post_lift_run (A : Type) (client : nat) (r : request)
      (f : response -> res A) (w : world) :
  encode_body (content r) = Ok tt ->
  bind (post client r) (fun resp => lift (f resp)) w
  = mk_out (res_bind (reply_to w client r) f) (after_post w client r) [Post client r].
Proof.
  intros He. erewrite bind_eq by (apply post_run; exact He).
  now destruct (reply_to w client r).
Qed.

Lemma step1_run client client_id client_secret scopes code_challenge w :
  step1_get_flow_id client client_id client_secret scopes code_challenge w
  = let r := step1_request client_id client_secret scopes code_challenge in
    mk_out (res_bind (reply_to w client r) step1_result) (after_post w client r)
           [Post client r].
Proof. apply post_lift_run. reflexivity. Qed.

(** The step-2 body can be encoded exactly when the flow identifier can. *)
Lemma step2_request_encoded flow_id aid asec :
  encode_body (content (step2_request flow_id aid asec))
  = if json_compliant flow_id then Ok tt
    else Raise (ValueError (Text "Out of range float values are not JSON compliant")).
Proof.
  unfold step2_request. cbn [content encode_body json_compliant forallb snd].
  destruct aid, asec; cbn [of_opt json_compliant]; now rewrite !andb_true_r.
Qed.

Lemma step2_run client flow_id aid asec w :
  step2_authenticate_agent client flow_id aid asec w
  = let r := step2_request flow_id aid asec in
    if json_compliant flow_id
    then mk_out (res_bind (reply_to w client r) step2_result) (after_post w client r)
                [Post client r]
    else mk_out (Raise (ValueError
                          (Text "Out of range float values are not JSON compliant")))
                w [].
Proof.
  cbn zeta. pose proof (step2_request_encoded flow_id aid asec) as He.
  unfold step2_authenticate_agent.
  destruct (json_compliant flow_id).
  - now apply post_lift_run.
  - erewrite bind_eq by (apply post_refused; exact He). reflexivity.
Qed.

Lemma step3_run client client_id client_secret code code_verifier w :
  step3_exchange_code_for_token client client_id client_secret code code_verifier w
  = let r := step3_request client_id client_secret code code_verifier in
    mk_out (res_bind (reply_to w client r) step3_result) (after_post w client r)
           [Post client r].
Proof. apply post_lift_run. reflexivity. Qed.

Lemma exchange_run client subject_token actor_token target_scopes label w :
  token_exchange_downscope client subject_token actor_token target_scopes label w
  = let r := exchange_request subject_token actor_token target_scopes in
    mk_out (res_bind (reply_to w client r) exchange_result) (after_post w client r)
           [Post client r].
Proof. apply post_lift_run. reflexivity. Qed.

Lemma display_run (token : pyval) (w : world) :
  bind (lift (print_token token))
       (fun _ => bind (lift (print_jwt_claims json_loads token))
                      (fun _ => ret token)) w
  = mk_out (display token) w [].
Proof.
  unfold bind, lift, ret, display. cbn [result final log].
  destruct (print_token token); cbn [res_bind]; [ | reflexivity ].
  now destruct (print_jwt_claims json_loads token).
Qed.

Lemma redeem_run fresh app_id app_secret code verifier w :
  redeem fresh app_id app_secret code verifier w
  = let r := step3_request app_id app_secret code verifier in
    mk_out (res_bind (res_bind (reply_to w fresh r) step3_result) display)
           (after_post w fresh r) [Post fresh r].
Proof.
  unfold redeem. erewrite bind_eq by apply step3_run. cbn zeta.
  destruct (res_bind _ step3_result) as [tok|e]; [ | reflexivity ].
  rewrite display_run. reflexivity.
Qed.

(** The flow, one request at a time. *)
Lemma flow_run client aid asec app_id app_secret scopes label w :
  get_actor_token_3step client aid asec app_id app_secret scopes label w
  = let banner := Header ("3-STEP ACTOR TOKEN FLOW: " ++ label)%string in
    let fresh := clients w in
    let r1 := step1_request app_id app_secret (scopes_or_default scopes)
                            (flow_challenge w) in
    let w1 := after_post (flow_world w) fresh r1 in
    match res_bind (reply_to (flow_world w) fresh r1) step1_result with
    | Raise e => mk_out (Raise e) w1 [banner; Post fresh r1]
    | Ok (flow_id, direct_code) =>
        if truthy direct_code then
          let o := redeem fresh app_id app_secret direct_code (flow_verifier w) w1 in
          mk_out (result o) (final o) (banner :: Post fresh r1 :: log o)
        else if json_compliant flow_id then
          let r2 := step2_request flow_id aid asec in
          let w2 := after_post w1 fresh r2 in
          match res_bind (reply_to w1 fresh r2) step2_result with
          | Raise e => mk_out (Raise e) w2 [banner; Post fresh r1; Post fresh r2]
          | Ok code =>
              let o := redeem fresh app_id app_secret code (flow_verifier w) w2 in
              mk_out (result o) (final o)
                     (banner :: Post fresh r1 :: Post fresh r2 :: log o)
          end
        else
          mk_out (Raise (ValueError
                           (Text "Out of range float values are not JSON compliant")))
                 w1 [banner; Post fresh r1]
    end.
Proof.
  unfold get_actor_token_3step, print_header. fold (scopes_or_default scopes).
  rewrite run_bind. cbn [emit result final log].
  rewrite run_bind, generate_pkce_run. cbn [result final log].
  rewrite run_bind. cbn [new_client result final log provider entropy clients].
  fold (flow_world w).
  rewrite run_bind, step1_run. cbn zeta. cbn [result final log].
  destruct (res_bind _ step1_result) as [[flow_id direct_code]|e]; [ | reflexivity ].
  destruct (truthy direct_code).
  - rewrite run_bind. cbn [ret result final log]. reflexivity.
  - rewrite run_bind, step2_run. cbn zeta.
    destruct (json_compliant flow_id); cbn [result final log]; [ | reflexivity ].
    destruct (res_bind _ step2_result) as [code|e]; reflexivity.
Qed.

Lemma redeem_log fresh app_id app_secret code verifier w :
  log (redeem fresh app_id app_secret code verifier w)
  = [Post fresh (step3_request app_id app_secret code verifier)].
Proof. rewrite redeem_run. reflexivity. Qed.

(** The events of a flow: its banner, then one to three requests, all through
    the client opened for the flow. *)
Lemma flow_log client aid asec app_id app_secret scopes label w :
  exists reqs,
    log (get_actor_token_3step client aid asec app_id app_secret scopes label w)
    = Header ("3-STEP ACTOR TOKEN FLOW: " ++ label)%string
      :: List.map (Post (clients w)) reqs
    /\ flow_shape reqs
         (step1_request app_id app_secret (scopes_or_default scopes) (flow_challenge w))
         (fun f => step2_request f aid asec)
         (fun c => step3_request app_id app_secret c (flow_verifier w)).
Proof.
  rewrite flow_run. cbn zeta. unfold flow_shape.
  destruct (res_bind _ step1_result) as [[flow_id direct_code]|e].
  - destruct (truthy direct_code).
    + rewrite redeem_log. eexists [_; _]. split; [ reflexivity | ].
      right. left. now eexists.
    + destruct (json_compliant flow_id);
        [ | eexists [_]; split; [ reflexivity | now left ] ].
      destruct (res_bind _ step2_result) as [code|e].
      * rewrite redeem_log. eexists [_; _; _]. split; [ reflexivity | ].
        right. right. right. now do 2 eexists.
      * eexists [_; _]. split; [ reflexivity | ]. right. right. left. now eexists.
  - eexists [_]. split; [ reflexivity | ]. now left.
Qed.

Lemma posts_app (l1 l2 : list event) : posts (l1 ++ l2) = posts l1 ++ posts l2.
Proof.
  induction l1 as [|ev l1 IH]; [ reflexivity | ].
  destruct ev; cbn [posts app]; now rewrite ?IH.
Qed.

Lemma posts_map_post (client : nat) (reqs : list request) :
  posts (List.map (Post client) reqs) = reqs.
Proof. induction reqs as [|r reqs IH]; cbn [posts List.map]; now rewrite ?IH. Qed.

Lemma flow_posts client aid asec app_id app_secret scopes label w :
  flow_shape
    (posts (log (get_actor_token_3step client aid asec app_id app_secret scopes label w)))
    (step1_request app_id app_secret (scopes_or_default scopes) (flow_challenge w))
    (fun f => step2_request f aid asec)
    (fun c => step3_request app_id app_secret c (flow_verifier w)).
Proof.
  destruct (flow_log client aid asec app_id app_secret scopes label w)
    as [reqs [-> Hshape]].
  cbn [posts]. now rewrite posts_map_post.
Qed.

(** ** The worker loop *)

Lemma worker_try_run client tok key cfg w :
  worker_try client tok key cfg w
  = let o := worker_flow client (key, cfg) w in
    match result o with
    | Raise e => mk_out (Raise e) (final o) (log o)
    | Ok agent_token =>
        let r := exchange_request tok agent_token (scopes cfg) in
        mk_out (res_bind (res_bind (reply_to (final o) client r) exchange_result)
                         (fun _ => Ok tt))
               (after_post (final o) client r)
               (log o ++ [Header ("TOKEN EXCHANGE (DOWNSCOPE): " ++ upper key)%string;
                          Post client r])
    end.
Proof.
  unfold worker_try, worker_flow, print_header. cbn [fst snd].
  rewrite run_bind. cbn zeta.
  destruct (get_actor_token_3step client (agent_id cfg) (agent_secret cfg)
              TOKEN_EXCHANGER_CLIENT_ID TOKEN_EXCHANGER_CLIENT_SECRET
              (Some ["openid"]) (upper key) w) as [[agent_token|e] w' l];
    cbn [result final log]; [ | reflexivity ].
  rewrite run_bind. cbn [emit result final log].
  rewrite run_bind, exchange_run. cbn zeta. cbn [result final log].
  destruct (res_bind _ exchange_result); reflexivity.
Qed.

Lemma worker_turn_skip client tok key cfg w :
  missing (agent_id cfg) || missing (agent_secret cfg) = true ->
  worker_turn client tok (key, cfg) w = mk_out (Ok tt) w [Skip key].
Proof. intros H. unfold worker_turn. rewrite H. reflexivity. Qed.

Lemma worker_turn_run client tok key cfg w :
  missing (agent_id cfg) || missing (agent_secret cfg) = false ->
  worker_turn client tok (key, cfg) w
  = let o := worker_try client tok key cfg w in
    match result o with
    | Ok _ => mk_out (Ok tt) (final o) (log o)
    | Raise e => mk_out (Ok tt) (final o) (log o ++ [Error key e])
    end.
Proof.
  intros H. unfold worker_turn, try_except. rewrite H. cbn zeta.
  destruct (worker_try client tok key cfg w) as [[[]|e] w' l]; reflexivity.
Qed.

(** A turn of the loop never raises. *)
Lemma worker_turn_result client tok entry w :
  result (worker_turn client tok entry w) = Ok tt.
Proof.
  destruct entry as [key cfg].
  destruct (missing (agent_id cfg) || missing (agent_secret cfg)) eqn:H.
  - now rewrite worker_turn_skip.
  - rewrite worker_turn_run by exact H. cbn zeta.
    now destruct (result (worker_try client tok key cfg w)).
Qed.

Lemma worker_loop_cons client tok entry rest w :
  worker_loop client tok (entry :: rest) w
  = let o := worker_turn client tok entry w in
    let o' := worker_loop client tok rest (final o) in
    mk_out (result o') (final o') (log o ++ log o').
Proof.
  cbn [worker_loop]. rewrite run_bind, worker_turn_result. reflexivity.
Qed.

Lemma worker_loop_result client tok agents w :
  result (worker_loop client tok agents w) = Ok tt.
Proof.
  revert w. induction agents as [|entry rest IH]; intros w; [ reflexivity | ].
  rewrite worker_loop_cons. cbn zeta. cbn [result]. apply IH.
Qed.

(** Every event of the loop belongs to the turn of some entry, started in the
    world the entries before it have left. *)
Lemma worker_loop_event client tok agents w ev :
  In ev (log (worker_loop client tok agents w)) ->
  exists i entry,
    nth_error agents i = Some entry
    /\ In ev (log (worker_turn client tok entry
                     (final (worker_loop client tok (firstn i agents) w)))).
Proof.
  revert w. induction agents as [|entry rest IH]; intros w Hin; [ contradiction | ].
  rewrite worker_loop_cons in Hin. cbn zeta in Hin. cbn [log] in Hin.
  apply in_app_or in Hin as [Hin|Hin].
  - exists 0%nat, entry. split; [ reflexivity | exact Hin ].
  - destruct (IH _ Hin) as [i [entry' [Hnth Hev]]].
    exists (S i), entry'. split; [ exact Hnth | ].
    cbn [firstn]. rewrite worker_loop_cons. cbn zeta. cbn [final]. exact Hev.
Qed.

(** Conversely, the events of every turn are in the log of the loop. *)
Lemma worker_loop_turn client tok agents w i entry :
  nth_error agents i = Some entry ->
  exists before after,
    log (worker_loop client tok agents w)
    = before
      ++ log (worker_turn client tok entry
                (final (worker_loop client tok (firstn i agents) w)))
      ++ after
    /\ before = log (worker_loop client tok (firstn i agents) w).
Proof.
  revert w i. induction agents as [|e rest IH]; intros w i Hnth.
  - destruct i; discriminate Hnth.
  - destruct i as [|i].
    + injection Hnth as ->. rewrite worker_loop_cons. cbn zeta. cbn [log firstn].
      exists [], (log (worker_loop client tok rest (final (worker_turn client tok entry w)))).
      split; reflexivity.
    + cbn [nth_error] in Hnth.
      destruct (IH (final (worker_turn client tok e w)) i Hnth)
        as [before [after [Hlog Hbefore]]].
      rewrite !worker_loop_cons. cbn zeta. cbn [log final firstn].
      rewrite worker_loop_cons. cbn zeta. cbn [log final].
      rewrite Hlog. exists (log (worker_turn client tok e w) ++ before), after.
      split; [ now rewrite <- app_assoc | now rewrite Hbefore ].
Qed.

(** ** The driver *)

(** The shape of [main], for any flow and any loop that does not raise. *)
Lemma driver_run (flow : nat -> M pyval) (loop : nat -> pyval -> M unit) (w : world) :
  (forall client tok w', result (loop client tok w') = Ok tt) ->
  bind (emit (Header "A2A TOKEN FLOW DEMONSTRATION"))
       (fun _ =>
          bind new_client
               (fun client =>
                  bind (try_except
                          (bind (flow client) (fun tok => ret (Some tok)))
                          (fun e => bind (emit (Fatal e)) (fun _ => ret None)))
                       (fun phase1 =>
                          match phase1 with
                          | None => ret tt
                          | Some tok =>
                              bind (loop client tok)
                                   (fun _ => emit (Header "TOKEN FLOW SUMMARY"))
                          end))) w
  = match flow (clients w) (mk_world (provider w) (entropy w) (S (clients w))) with
    | mk_out (Raise e) wo lo =>
        mk_out (Ok tt) wo (Header "A2A TOKEN FLOW DEMONSTRATION" :: lo ++ [Fatal e])
    | mk_out (Ok tok) wo lo =>
        mk_out (Ok tt) (final (loop (clients w) tok wo))
               (Header "A2A TOKEN FLOW DEMONSTRATION"
                  :: lo ++ log (loop (clients w) tok wo)
                        ++ [Header "TOKEN FLOW SUMMARY"])
    end.
Proof.
  intros Hloop. unfold try_except.
  rewrite run_bind. cbn [emit result final log].
  rewrite run_bind. cbn [new_client result final log].
  rewrite run_bind. rewrite run_bind.
  destruct (flow (clients w) _) as [[tok|e] w' l];
    cbn [ret emit result final log].
  - rewrite run_bind, Hloop. cbn [emit result final log].
    destruct (loop (clients w) tok w') as [r' w'' l'].
    cbn [result final log app]. now rewrite app_nil_r.
  - cbn [bind emit ret result final log app]. now rewrite !app_nil_r.
Qed.

Lemma main_run (w : world) :
  main w
  = match orchestrator_flow (clients w)
                            (mk_world (provider w) (entropy w) (S (clients w))) with
    | mk_out (Raise e) wo lo =>
        mk_out (Ok tt) wo (Header "A2A TOKEN FLOW DEMONSTRATION" :: lo ++ [Fatal e])
    | mk_out (Ok tok) wo lo =>
        mk_out (Ok tt) (final (worker_loop (clients w) tok AGENTS wo))
               (Header "A2A TOKEN FLOW DEMONSTRATION"
                  :: lo ++ log (worker_loop (clients w) tok AGENTS wo)
                        ++ [Header "TOKEN FLOW SUMMARY"])
    end.
Proof.
  unfold main, print_header.
  apply (driver_run orchestrator_flow (fun client tok => worker_loop client tok AGENTS)).
  intros client tok w'. apply worker_loop_result.
Qed.

Lemma missing_spec (o : option string) :
  missing o = true <-> o = None \/ o = Some EmptyString.
Proof.
  unfold missing. destruct o as [[|c s]|]; cbn; split; intros H; auto;
    try discriminate H; destruct H as [H|H]; discriminate H.
Qed.

(** C10: a worker whose agent_id or agent_secret is absent or empty is skipped:
    its turn sends nothing, draws nothing, opens no client and leaves the
    provider as it was; it only prints the SKIP line (no ERROR line), it does
    not raise, and the loop goes on with the next worker in the same world. *)
Theorem worker_without_credentials_is_skipped
        (client : nat) (tok : pyval) (key : string) (cfg : agent_cfg)
        (rest : list (string * agent_cfg)) (w : world) :
  (agent_id cfg = None \/ agent_id cfg = Some EmptyString
   \/ agent_secret cfg = None \/ agent_secret cfg = Some EmptyString) ->
  worker_turn client tok (key, cfg) w = mk_out (Ok tt) w [Skip key]
  /\ posts (log (worker_turn client tok (key, cfg) w)) = []
  /\ worker_loop client tok ((key, cfg) :: rest) w
     = mk_out (result (worker_loop client tok rest w))
              (final (worker_loop client tok rest w))
              (Skip key :: log (worker_loop client tok rest w)).
Proof.
  intros H.
  assert (Hm : missing (agent_id cfg) || missing (agent_secret cfg) = true).
  { apply orb_true_iff.
    destruct H as [H|[H|[H|H]]];
      [ left | left | right | right ]; apply missing_spec; auto. }
  pose proof (worker_turn_skip client tok key cfg w Hm) as Hturn.
  split; [ exact Hturn | ]. split.
  - rewrite Hturn. reflexivity.
  - rewrite worker_loop_cons, Hturn. reflexivity.
Qed.

Lemma worker_flow_log client entry w :
  exists tail,
    log (worker_flow client entry w)
    = Header ("3-STEP ACTOR TOKEN FLOW: " ++ upper (fst entry))%string
      :: Post (clients w)
              (step1_request TOKEN_EXCHANGER_CLIENT_ID TOKEN_EXCHANGER_CLIENT_SECRET
                             ["openid"] (flow_challenge w))
      :: tail.
Proof.
  unfold worker_flow.
  destruct (flow_log client (agent_id (snd entry)) (agent_secret (snd entry))
              TOKEN_EXCHANGER_CLIENT_ID TOKEN_EXCHANGER_CLIENT_SECRET
              (Some ["openid"]) (upper (fst entry)) w) as [reqs [Hlog Hshape]].
  rewrite Hlog.
  destruct Hshape as [->|[[c ->]|[[f ->]|[f [c ->]]]]]; eexists; reflexivity.
Qed.

Lemma worker_turn_starts_flow client tok key cfg w :
  missing (agent_id cfg) || missing (agent_secret cfg) = false ->
  exists tail,
    log (worker_turn client tok (key, cfg) w)
    = Header ("3-STEP ACTOR TOKEN FLOW: " ++ upper key)%string
      :: Post (clients w)
              (step1_request TOKEN_EXCHANGER_CLIENT_ID TOKEN_EXCHANGER_CLIENT_SECRET
                             ["openid"] (flow_challenge w))
      :: tail.
Proof.
  intros Hm. rewrite worker_turn_run by exact Hm.
  rewrite worker_try_run.
  destruct (worker_flow_log client (key, cfg) w) as [tail Hflow].
  destruct (worker_flow client (key, cfg) w) as [r w' l].
  cbn [result final log fst] in *. subst l.
  destruct r as [agent_token|e]; cbn [result log].
  - destruct (res_bind (res_bind _ exchange_result) _); cbn [log app]; eauto.
  - cbn [app]. eauto.
Qed.

Lemma worker_turn_reports client tok key cfg w e :
  missing (agent_id cfg) || missing (agent_secret cfg) = false ->
  result (worker_try client tok key cfg w) = Raise e ->
  log (worker_turn client tok (key, cfg) w)
  = log (worker_try client tok key cfg w) ++ [Error key e].
Proof.
  intros Hm. rewrite worker_turn_run by exact Hm.
  destruct (worker_try client tok key cfg w) as [r w' l].
  cbn [result final log]. now intros ->.
Qed.

(** C8: a failure of the orchestrator's own flow ends the run with the FATAL
    line, and nothing of any worker happens; otherwise every worker that has
    credentials gets its turn, whatever happened to the workers before it: the
    turn starts that worker's flow with its first request, never raises, and
    reports a failure of the worker with an ERROR line. *)
Theorem worker_failures_are_isolated (w : world) :
  let client := clients w in
  let w0 := mk_world (provider w) (entropy w) (S (clients w)) in
  let o := orchestrator_flow client w0 in
  (forall e, result o = Raise e ->
     log (main w) = Header "A2A TOKEN FLOW DEMONSTRATION" :: log o ++ [Fatal e])
  /\ (forall tok, result o = Ok tok ->
      forall i key cfg,
        nth_error AGENTS i = Some (key, cfg) ->
        missing (agent_id cfg) || missing (agent_secret cfg) = false ->
        let wi := world_before client tok i (final o) in
        let turn := worker_turn client tok (key, cfg) wi in
        (exists before after, log (main w) = before ++ log turn ++ after)
        /\ (exists tail,
              log turn
              = Header ("3-STEP ACTOR TOKEN FLOW: " ++ upper key)%string
                :: Post (clients wi)
                     (step1_request TOKEN_EXCHANGER_CLIENT_ID
                        TOKEN_EXCHANGER_CLIENT_SECRET ["openid"] (flow_challenge wi))
                :: tail)
        /\ result turn = Ok tt
        /\ (forall e, result (worker_try client tok key cfg wi) = Raise e ->
              log turn = log (worker_try client tok key cfg wi) ++ [Error key e])).
Proof.
  intros client w0 o. subst client w0 o. rewrite main_run.
  destruct (orchestrator_flow (clients w) _) as [ro wo lo].
  cbn [result final log]. split.
  - intros e ->. reflexivity.
  - intros tok -> i key cfg Hnth Hm. split; [ | split; [ | split ] ].
    + destruct (worker_loop_turn (clients w) tok AGENTS wo i (key, cfg) Hnth)
        as [before [after [Hlog _]]].
      unfold world_before. cbn [log]. rewrite Hlog.
      exists (Header "A2A TOKEN FLOW DEMONSTRATION" :: lo ++ before),
             (after ++ [Header "TOKEN FLOW SUMMARY"]).
      cbn [app]. f_equal. rewrite <- !app_assoc. reflexivity.
    + now apply worker_turn_starts_flow.
    + apply worker_turn_result.
    + intros e He. now apply worker_turn_reports.
Qed.

(** ** Where the requests of a run come from *)

Lemma flow_request_kinds client aid asec app_id app_secret scopes label w r :
  In r (posts (log (get_actor_token_3step client aid asec app_id app_secret
                                          scopes label w))) ->
  r = step1_request app_id app_secret (scopes_or_default scopes) (flow_challenge w)
  \/ (exists f, r = step2_request f aid asec)
  \/ (exists c, r = step3_request app_id app_secret c (flow_verifier w)).
Proof.
  intros Hin.
  destruct (flow_posts client aid asec app_id app_secret scopes label w)
    as [H|[[c H]|[[f H]|[f [c H]]]]];
    rewrite H in Hin; cbn [In] in Hin;
    repeat match goal with
           | H : _ \/ _ |- _ => destruct H
           | H : False |- _ => contradiction
           end; subst r; eauto.
Qed.

Lemma step1_request_grant a b c d : form_field "grant_type" (step1_request a b c d) = None.
Proof. reflexivity. Qed.

Lemma step2_request_field k f a b : form_field k (step2_request f a b) = None.
Proof. reflexivity. Qed.

Lemma step3_request_grant a b c d :
  form_field "grant_type" (step3_request a b c d) = Some (PStr "authorization_code").
Proof. reflexivity. Qed.

Lemma flow_request_not_exchange client aid asec app_id app_secret scopes label w r :
  In r (posts (log (get_actor_token_3step client aid asec app_id app_secret
                                          scopes label w))) ->
  ~ is_exchange r.
Proof.
  intros Hin Hex. unfold is_exchange in Hex.
  destruct (flow_request_kinds _ _ _ _ _ _ _ _ _ Hin) as [->|[[f ->]|[c ->]]].
  - rewrite step1_request_grant in Hex. discriminate Hex.
  - rewrite step2_request_field in Hex. discriminate Hex.
  - rewrite step3_request_grant in Hex. discriminate Hex.
Qed.

Lemma In_posts (l : list event) (r : request) :
  In r (posts l) <-> exists c, In (Post c r) l.
Proof.
  induction l as [|ev l IH]; cbn [posts In].
  - split; [ contradiction | intros [c []] ].
  - destruct ev; cbn [In]; rewrite ?IH; split.
    all: try (intros [c H]; exists c; now right).
    all: try (intros [c [H|H]]; [ discriminate H | now exists c ]).
    + intros [->|[c H]]; [ eexists; left; reflexivity | exists c; now right ].
    + intros [c [H|H]]; [ injection H as _ ->; now left | right; now exists c ].
Qed.

Lemma worker_turn_requests client tok key cfg w r :
  In r (posts (log (worker_turn client tok (key, cfg) w))) ->
  In r (posts (log (worker_flow client (key, cfg) w)))
  \/ (exists agent_token,
        result (worker_flow client (key, cfg) w) = Ok agent_token
        /\ r = exchange_request tok agent_token (scopes cfg)).
Proof.
  destruct (missing (agent_id cfg) || missing (agent_secret cfg)) eqn:Hm.
  - rewrite worker_turn_skip by exact Hm. contradiction.
  - rewrite worker_turn_run by exact Hm. rewrite worker_try_run.
    destruct (worker_flow client (key, cfg) w) as [[agent_token|e] w' l];
      cbn [result final log].
    + intros Hin.
      assert (Hin' : In r (posts l)
                     \/ r = exchange_request tok agent_token (scopes cfg)).
      { destruct (res_bind (res_bind _ exchange_result) _); cbn [log] in Hin;
          rewrite ?posts_app in Hin; cbn [posts] in Hin;
          repeat (apply in_app_or in Hin as [Hin|Hin]); cbn [In] in Hin; intuition. }
      destruct Hin' as [H|H]; [ now left | right; now exists agent_token ].
    + intros Hin. left. rewrite posts_app in Hin. cbn [posts] in Hin.
      now rewrite app_nil_r in Hin.
Qed.

Lemma main_log_ok (w wo : world) (tok : pyval) (lo : list event) :
  orchestrator_flow (clients w) (mk_world (provider w) (entropy w) (S (clients w)))
  = mk_out (Ok tok) wo lo ->
  log (main w)
  = Header "A2A TOKEN FLOW DEMONSTRATION"
    :: lo ++ log (worker_loop (clients w) tok AGENTS wo)
          ++ [Header "TOKEN FLOW SUMMARY"].
Proof. intros Ho. rewrite main_run, Ho. reflexivity. Qed.

Lemma main_log_fatal (w wo : world) (e : exn) (lo : list event) :
  orchestrator_flow (clients w) (mk_world (provider w) (entropy w) (S (clients w)))
  = mk_out (Raise e) wo lo ->
  log (main w) = Header "A2A TOKEN FLOW DEMONSTRATION" :: lo ++ [Fatal e].
Proof. intros Ho. rewrite main_run, Ho. reflexivity. Qed.

Lemma posts_header (title : string) (l : list event) : posts (Header title :: l) = posts l.
Proof. reflexivity. Qed.

Lemma posts_single (ev : event) : (forall c r, ev <> Post c r) -> posts [ev] = [].
Proof. destruct ev; intros H; [ now destruct (H client r) | reflexivity .. ]. Qed.

(** A request of a run belongs to the orchestrator's flow, to the flow of a
    worker, or is the exchange that follows the flow of a worker. *)
Lemma main_requests (w : world) (r : request) :
  let client := clients w in
  let w0 := mk_world (provider w) (entropy w) (S (clients w)) in
  let o := orchestrator_flow client w0 in
  In r (posts (log (main w))) ->
  In r (posts (log o))
  \/ (exists tok i key cfg,
        result o = Ok tok
        /\ nth_error AGENTS i = Some (key, cfg)
        /\ let wi := world_before client tok i (final o) in
           In r (posts (log (worker_flow client (key, cfg) wi)))
           \/ (exists agent_token,
                 result (worker_flow client (key, cfg) wi) = Ok agent_token
                 /\ r = exchange_request tok agent_token (scopes cfg))).
Proof.
  intros client w0 o. subst client w0 o.
  destruct (orchestrator_flow (clients w)
              (mk_world (provider w) (entropy w) (S (clients w))))
    as [[tok|e] wo lo] eqn:Ho.
  - rewrite (main_log_ok w wo tok lo Ho), posts_header, !posts_app.
    rewrite (posts_single (Header "TOKEN FLOW SUMMARY")) by discriminate.
    rewrite app_nil_r. intros Hin.
    apply in_app_or in Hin as [Hin|Hin]; [ now left | right ].
    apply In_posts in Hin as [c Hev].
    apply worker_loop_event in Hev as [i [[key cfg] [Hnth Hturn]]].
    exists tok, i, key, cfg. split; [ reflexivity | ]. split; [ exact Hnth | ].
    apply worker_turn_requests. apply In_posts. exists c. exact Hturn.
  - rewrite (main_log_fatal w wo e lo Ho), posts_header, posts_app.
    rewrite (posts_single (Fatal e)) by discriminate.
    rewrite app_nil_r. intros Hin. now left.
Qed.

Lemma exchange_request_fields subject_token actor_token target_scopes :
  let r := exchange_request subject_token actor_token target_scopes in
  form_field "grant_type" r = Some (PStr exchange_grant)
  /\ form_field "subject_token" r = Some subject_token
  /\ form_field "actor_token" r = Some actor_token
  /\ form_field "scope" r = Some (PStr (join " " target_scopes)).
Proof. repeat split. Qed.

Lemma AGENTS_scopes_sorted key cfg :
  In (key, cfg) AGENTS -> sorted_strings (scopes cfg) = scopes cfg.
Proof.
  unfold AGENTS. cbn [In].
  intros [H|[H|[H|[H|[]]]]]; injection H as _ <-; reflexivity.
Qed.

(** An exchange request of a run is the exchange of some worker's turn. *)
Lemma main_exchange_origin (w : world) (r : request) :
  In r (posts (log (main w))) ->
  is_exchange r ->
  exists tok i key cfg agent_token,
    result (orchestrator_flow (clients w)
              (mk_world (provider w) (entropy w) (S (clients w)))) = Ok tok
    /\ nth_error AGENTS i = Some (key, cfg)
    /\ result (worker_flow (clients w) (key, cfg)
                 (world_before (clients w) tok i
                    (final (orchestrator_flow (clients w)
                              (mk_world (provider w) (entropy w) (S (clients w)))))))
       = Ok agent_token
    /\ r = exchange_request tok agent_token (scopes cfg).
Proof.
  intros Hin Hex.
  destruct (main_requests w r Hin) as [Ho|[tok [i [key [cfg [Ho [Hnth Hr]]]]]]].
  - exfalso. revert Hex. unfold orchestrator_flow in Ho.
    exact (flow_request_not_exchange _ _ _ _ _ _ _ _ _ Ho).
  - destruct Hr as [Hflow|[agent_token [Htok Hr]]].
    + exfalso. revert Hex. unfold worker_flow in Hflow.
      exact (flow_request_not_exchange _ _ _ _ _ _ _ _ _ Hflow).
    + exists tok, i, key, cfg, agent_token.
      split; [ exact Ho | ]. split; [ exact Hnth | ]. split; [ exact Htok | exact Hr ].
Qed.

(** [sorted_strings] is a sort: its result is in order and has the elements
    of its argument. *)
Lemma insert_sorted_permutation (x : string) (l : list string) :
  Permutation (x :: l) (insert_sorted x l).
Proof.
  induction l as [|y l IH]; cbn [insert_sorted]; [ apply Permutation_refl | ].
  destruct (String.leb x y); [ apply Permutation_refl | ].
  eapply perm_trans; [ apply perm_swap | ]. now apply perm_skip.
Qed.

Lemma sorted_strings_permutation (l : list string) :
  Permutation l (sorted_strings l).
Proof.
  induction l as [|x l IH]; cbn [sorted_strings fold_right]; [ apply perm_nil | ].
  eapply perm_trans; [ apply perm_skip, IH | apply insert_sorted_permutation ].
Qed.

Lemma insert_sorted_sorted (x : string) (l : list string) :
  Sorted (fun a b => String.leb a b = true) l ->
  Sorted (fun a b => String.leb a b = true) (insert_sorted x l).
Proof.
  induction l as [|y l IH]; intros Hs; cbn [insert_sorted].
  - repeat constructor.
  - destruct (String.leb x y) eqn:E.
    + constructor; [ exact Hs | constructor; exact E ].
    + apply Sorted_inv in Hs as [Hs Hhd].
      constructor; [ now apply IH | ].
      assert (Hyx : String.leb y x = true).
      { destruct (String.leb_total x y) as [H|H]; [ congruence | exact H ]. }
      destruct l as [|z l]; cbn [insert_sorted].
      * constructor. exact Hyx.
      * destruct (String.leb x z); constructor; [ exact Hyx | ].
        now apply HdRel_inv in Hhd.
Qed.

Lemma sorted_strings_sorted (l : list string) :
  Sorted (fun a b => String.leb a b = true) (sorted_strings l).
Proof.
  induction l as [|x l IH]; cbn [sorted_strings fold_right]; [ constructor | ].
  now apply insert_sorted_sorted.
Qed.

(** An exchange request of a run is sent in the turn of some worker. *)
Lemma main_exchange_turn (w : world) (c : nat) (r : request) :
  In (Post c r) (log (main w)) ->
  is_exchange r ->
  exists tok i key cfg,
    result (orchestrator_flow (clients w)
              (mk_world (provider w) (entropy w) (S (clients w)))) = Ok tok
    /\ nth_error AGENTS i = Some (key, cfg)
    /\ In (Post c r)
          (log (worker_turn (clients w) tok (key, cfg)
                  (world_before (clients w) tok i
                     (final (orchestrator_flow (clients w)
                               (mk_world (provider w) (entropy w)
                                         (S (clients w)))))))).
Proof.
  intros Hin Hex.
  assert (Hflow : ~ In (Post c r)
                       (log (orchestrator_flow (clients w)
                               (mk_world (provider w) (entropy w) (S (clients w)))))).
  { intros H. revert Hex. unfold orchestrator_flow in H.
    apply (flow_request_not_exchange (clients w) ORCHESTRATOR_AGENT_ID
             ORCHESTRATOR_AGENT_SECRET ORCHESTRATOR_CLIENT_ID
             ORCHESTRATOR_CLIENT_SECRET (Some ["openid"]) "ORCHESTRATOR"
             (mk_world (provider w) (entropy w) (S (clients w))) r).
    apply In_posts. now exists c. }
  destruct (orchestrator_flow (clients w)
              (mk_world (provider w) (entropy w) (S (clients w))))
    as [[tok|e] wo lo] eqn:Ho; cbn [result final log] in *.
  - rewrite (main_log_ok w wo tok lo Ho) in Hin.
    destruct Hin as [Hin|Hin]; [ discriminate Hin | ].
    apply in_app_or in Hin as [Hin|Hin]; [ contradiction | ].
    apply in_app_or in Hin as [Hin|[Hin|[]]]; [ | discriminate Hin ].
    apply worker_loop_event in Hin as [i [[key cfg] [Hnth Hturn]]].
    exists tok, i, key, cfg. split; [ reflexivity | ]. split; [ exact Hnth | ].
    exact Hturn.
  - rewrite (main_log_fatal w wo e lo Ho) in Hin.
    destruct Hin as [Hin|Hin]; [ discriminate Hin | ].
    apply in_app_or in Hin as [Hin|[Hin|[]]]; [ contradiction | discriminate Hin ].
Qed.

(** The exchange request of a turn carries the scopes of the turn's entry. *)
Lemma worker_turn_exchange client tok key cfg w c r :
  In (Post c r) (log (worker_turn client tok (key, cfg) w)) ->
  is_exchange r ->
  exists agent_token,
    result (worker_flow client (key, cfg) w) = Ok agent_token
    /\ r = exchange_request tok agent_token (scopes cfg).
Proof.
  intros Hin Hex.
  assert (Hr : In r (posts (log (worker_turn client tok (key, cfg) w)))).
  { apply In_posts. now exists c. }
  destruct (worker_turn_requests client tok key cfg w r Hr) as [Hflow|H];
    [ | exact H ].
  exfalso. revert Hex. unfold worker_flow in Hflow.
  exact (flow_request_not_exchange _ _ _ _ _ _ _ _ _ Hflow).
Qed.

(** C1: every token-exchange request of a run is sent in the turn of one of
    the workers of [AGENTS]; and whatever exchange request the turn of a
    worker sends, its scope string is that worker's configured scopes joined
    by single spaces, in the configured order, which for every entry of
    [AGENTS] is also the sorted order.  The string is the one expected for
    the worker's key, and its words are the worker's configured scopes, so
    nothing outside them is requested. *)
Theorem exchange_scope_is_configured_scope (w : world) :
  let client := clients w in
  let o := orchestrator_flow client
             (mk_world (provider w) (entropy w) (S (clients w))) in
  (forall c r,
      In (Post c r) (log (main w)) ->
      is_exchange r ->
      exists tok i key cfg,
        result o = Ok tok
        /\ nth_error AGENTS i = Some (key, cfg)
        /\ In (Post c r)
              (log (worker_turn client tok (key, cfg)
                      (world_before client tok i (final o)))))
  /\ (forall i key cfg,
        nth_error AGENTS i = Some (key, cfg) ->
        forall client' tok w' c r,
          In (Post c r) (log (worker_turn client' tok (key, cfg) w')) ->
          is_exchange r ->
          exists scope,
            form_field "scope" r = Some (PStr scope)
            /\ scope = join " " (sorted_strings (scopes cfg))
            /\ scope = join " " (scopes cfg)
            /\ In (key, scope) scope_texts
            /\ words scope = scopes cfg
            /\ (forall s, In s (words scope) -> In s (scopes cfg))).
Proof.
  cbn zeta. split.
  - intros c r. apply main_exchange_turn.
  - intros i key cfg Hnth client' tok w' c r Hin Hex.
    destruct (worker_turn_exchange client' tok key cfg w' c r Hin Hex)
      as [agent_token [_ ->]].
    exists (join " " (scopes cfg)).
    split; [ reflexivity | ].
    assert (Hentry : In (key, cfg) AGENTS) by (eapply nth_error_In; exact Hnth).
    rewrite (AGENTS_scopes_sorted key cfg Hentry).
    split; [ reflexivity | ]. split; [ reflexivity | ].
    assert (Htable : In (key, join " " (scopes cfg)) scope_texts
                     /\ words (join " " (scopes cfg)) = scopes cfg).
    { unfold AGENTS in Hentry. cbn [In] in Hentry.
      destruct Hentry as [H|[H|[H|[H|[]]]]]; injection H as <- <-;
        (split; [ vm_compute; tauto | reflexivity ]). }
    destruct Htable as [Htable Hwords].
    split; [ exact Htable | ]. split; [ exact Hwords | ].
    intros s Hs. now rewrite Hwords in Hs.
Qed.

(** C2: every token-exchange request of a run carries, as subject token, the
    token the orchestrator's flow returned at the start of the run, the same
    for all workers; as actor token, the token returned by the flow of the
    worker whose turn it is, run with that worker's credentials in the world
    the earlier turns have left; and as scope, that worker's configured
    scopes. *)
Theorem exchange_uses_orchestrator_and_worker_tokens (w : world) (r : request) :
  In r (posts (log (main w))) ->
  is_exchange r ->
  exists tok i key cfg agent_token,
    result (orchestrator_flow (clients w)
              (mk_world (provider w) (entropy w) (S (clients w)))) = Ok tok
    /\ nth_error AGENTS i = Some (key, cfg)
    /\ result (get_actor_token_3step (clients w) (agent_id cfg) (agent_secret cfg)
                 TOKEN_EXCHANGER_CLIENT_ID TOKEN_EXCHANGER_CLIENT_SECRET
                 (Some ["openid"]) (upper key)
                 (world_before (clients w) tok i
                    (final (orchestrator_flow (clients w)
                              (mk_world (provider w) (entropy w) (S (clients w)))))))
       = Ok agent_token
    /\ r = exchange_request tok agent_token (scopes cfg)
    /\ form_field "subject_token" r = Some tok
    /\ form_field "actor_token" r = Some agent_token
    /\ form_field "scope" r = Some (PStr (join " " (scopes cfg))).
Proof.
  intros Hin Hex.
  destruct (main_exchange_origin w r Hin Hex)
    as [tok [i [key [cfg [agent_token [Ho [Hnth [Hflow ->]]]]]]]].
  exists tok, i, key, cfg, agent_token.
  split; [ exact Ho | ]. split; [ exact Hnth | ]. split; [ exact Hflow | ].
  split; [ reflexivity | ].
  exact (proj2 (exchange_request_fields tok agent_token (scopes cfg))).
Qed.

(** ** The step-1 request *)

Lemma flow_first_request client aid asec app_id app_secret scopes label w :
  exists tail,
    log (get_actor_token_3step client aid asec app_id app_secret scopes label w)
    = Header ("3-STEP ACTOR TOKEN FLOW: " ++ label)%string
      :: Post (clients w)
              (step1_request app_id app_secret (scopes_or_default scopes)
                             (flow_challenge w))
      :: tail.
Proof.
  destruct (flow_log client aid asec app_id app_secret scopes label w)
    as [reqs [-> Hshape]].
  destruct Hshape as [->|[[c ->]|[[f ->]|[f [c ->]]]]]; eexists; reflexivity.
Qed.

Lemma step1_request_fields app_id app_secret scopes code_challenge :
  let r := step1_request app_id app_secret scopes code_challenge in
  url r = AUTHORIZE_URL
  /\ form_field "client_id" r = Some (of_opt app_id)
  /\ form_field "scope" r = Some (PStr (join " " scopes))
  /\ form_field "redirect_uri" r = Some (PStr CALLBACK_URL)
  /\ form_field "response_mode" r = Some (PStr "direct")
  /\ form_field "code_challenge" r = Some (PStr code_challenge)
  /\ form_field "code_challenge_method" r = Some (PStr "S256")
  /\ header_field "Authorization" r
     = Some ("Basic " ++ basic_auth app_id app_secret)%string.
Proof. repeat split. Qed.

Lemma step1_request_openid app_id app_secret (w' : world) :
  let r := step1_request app_id app_secret ["openid"] (flow_challenge w') in
  form_field "scope" r = Some (PStr "openid")
  /\ form_field "redirect_uri" r = Some (PStr CALLBACK_URL)
  /\ form_field "code_challenge" r = Some (PStr (pkce_challenge (flow_verifier w')))
  /\ header_field "Authorization" r
     = Some ("Basic " ++ basic_auth app_id app_secret)%string.
Proof.
  generalize (step1_request_fields app_id app_secret ["openid"] (flow_challenge w')).
  unfold flow_challenge. cbn zeta. tauto.
Qed.

(** C5, as the code has it: every authorization initiation of a run, for the
    orchestrator and for every worker alike, asks for the single scope
    "openid", not for the scopes configured for the agent; it carries the
    credentials of the fronting application (the orchestrator application or
    the token exchanger) by basic authentication, the challenge derived from
    the verifier of its flow, and the redirect target [CALLBACK_URL]; and every
    flow sends such a request first. *)
Theorem authorize_request_asks_for_openid (w : world) (r : request) :
  In r (posts (log (main w))) ->
  is_authorize r ->
  (exists app_id app_secret w',
      ((app_id = ORCHESTRATOR_CLIENT_ID /\ app_secret = ORCHESTRATOR_CLIENT_SECRET)
       \/ (app_id = TOKEN_EXCHANGER_CLIENT_ID
           /\ app_secret = TOKEN_EXCHANGER_CLIENT_SECRET))
      /\ r = step1_request app_id app_secret ["openid"] (flow_challenge w')
      /\ form_field "scope" r = Some (PStr "openid")
      /\ form_field "redirect_uri" r = Some (PStr CALLBACK_URL)
      /\ form_field "code_challenge" r
         = Some (PStr (pkce_challenge (flow_verifier w')))
      /\ header_field "Authorization" r
         = Some ("Basic " ++ basic_auth app_id app_secret)%string)
  /\ (forall client aid asec app_id app_secret label w',
        exists tail,
          log (get_actor_token_3step client aid asec app_id app_secret
                 (Some ["openid"]) label w')
          = Header ("3-STEP ACTOR TOKEN FLOW: " ++ label)%string
            :: Post (clients w')
                 (step1_request app_id app_secret ["openid"] (flow_challenge w'))
            :: tail).
Proof.
  intros Hin Hauth. split.
  - assert (Hflow : forall client aid asec app_id app_secret label w',
               In r (posts (log (get_actor_token_3step client aid asec app_id
                                   app_secret (Some ["openid"]) label w'))) ->
               r = step1_request app_id app_secret ["openid"] (flow_challenge w')).
    { intros client aid asec app_id app_secret label w' H.
      destruct (flow_request_kinds _ _ _ _ _ _ _ _ _ H) as [->|[[f ->]|[c ->]]];
        [ reflexivity | discriminate Hauth | discriminate Hauth ]. }
    destruct (main_requests w r Hin) as [Ho|[tok [i [key [cfg [Ho [Hnth Hr]]]]]]].
    + unfold orchestrator_flow in Ho.
      apply (Hflow _ _ _ _ _ _ _) in Ho. subst r.
      exists ORCHESTRATOR_CLIENT_ID, ORCHESTRATOR_CLIENT_SECRET,
        (mk_world (provider w) (entropy w) (S (clients w))).
      split; [ left; split; reflexivity | ]. split; [ reflexivity | ].
      apply step1_request_openid.
    + destruct Hr as [Hw|[agent_token [_ ->]]]; [ | discriminate Hauth ].
      unfold worker_flow in Hw. cbn [fst snd] in Hw.
      apply (Hflow _ _ _ _ _ _ _) in Hw. subst r.
      exists TOKEN_EXCHANGER_CLIENT_ID, TOKEN_EXCHANGER_CLIENT_SECRET,
        (world_before (clients w) tok i
           (final (orchestrator_flow (clients w)
                     (mk_world (provider w) (entropy w) (S (clients w)))))).
      split; [ right; split; reflexivity | ]. split; [ reflexivity | ].
      apply step1_request_openid.
  - intros client aid asec app_id app_secret label w'.
    apply (flow_first_request client aid asec app_id app_secret (Some ["openid"])).
Qed.

(** ** The PKCE pair on the wire *)

Lemma string_of_bytes_length (b : bytes) :
  String.length (string_of_bytes b) = List.length b.
Proof.
  unfold string_of_bytes. induction b as [|x b IH]; [ reflexivity | ].
  cbn [List.map string_of_list_ascii String.length List.length]. now rewrite IH.
Qed.

Lemma base64url_nopad_length (s : bytes) :
  List.length (base64url_nopad s) = ((4 * List.length s + 2) / 3)%nat.
Proof.
  induction s as [ | a | a b | a b c rest IH ] using list_ind3;
    try reflexivity.
  cbn [base64url_nopad List.length]. rewrite IH.
  replace (4 * S (S (S (List.length rest))) + 2)%nat
    with ((4 * List.length rest + 2) + 4 * 3)%nat by lia.
  rewrite Nat.div_add by discriminate. lia.
Qed.

Lemma sha256_length (data : bytes) : List.length (sha256 data) = 32%nat.
Proof.
  unfold sha256, SHA256.digest. rewrite !length_app. reflexivity.
Qed.

Lemma drawn_length (w : world) : List.length (drawn w) = 64%nat.
Proof. unfold drawn. now rewrite length_map, length_seq. Qed.

Lemma flow_verifier_length (w : world) : String.length (flow_verifier w) = 86%nat.
Proof.
  unfold flow_verifier, pkce_verifier.
  now rewrite string_of_bytes_length, base64url_nopad_length, drawn_length.
Qed.

Lemma pkce_challenge_length (verifier : string) :
  String.length (pkce_challenge verifier) = 43%nat.
Proof.
  unfold pkce_challenge.
  now rewrite string_of_bytes_length, base64url_nopad_length, sha256_length.
Qed.



(** ** The direct code *)


(** ** Responses of the token endpoint *)

Lemma step3_result_string (resp : response) (s : string) :
  status_code resp = 200%Z ->
  access_token_field resp = Some (PStr s) ->
  step3_result resp = Ok (PStr s).
Proof.
  unfold step3_result, access_token_field. intros -> H. cbn [Z.eqb Pos.eqb negb].
  destruct (json resp) as [[ | | | | | |items]|e]; try discriminate H.
  cbn [res_bind py_get]. rewrite H. reflexivity.
Qed.

Lemma print_token_string (s : string) : print_token (PStr s) = Ok tt.
Proof.
  unfold print_token. cbn [py_len res_bind].
  destruct (100 <? String.length s)%nat; reflexivity.
Qed.

Lemma print_jwt_claims_dict (token : pyval) :
  is_dict (decode_jwt_payload json_loads token) = true ->
  print_jwt_claims json_loads token = Ok (decode_jwt_payload json_loads token).
Proof.
  unfold print_jwt_claims.
  destruct (decode_jwt_payload json_loads token) as [ | | | | | |items];
    intros H; try discriminate H.
  cbn [py_get].
  destruct (assoc "sub" items), (assoc "aud" items), (assoc "scope" items);
    reflexivity.
Qed.




(** ** The PKCE generator *)

(** The example of RFC 7636, appendix B. *)
Example rfc7636_appendix_b :
  code_challenge_of "dBjftJeZ4CVP-mB92K27uhbUJU1p1r_wW1gFWFOEjXk"
  = Ok "E9Melhoa2OwvFrEMTJguCHaoeK1t8URWbuGJSstw-cM".
Proof. vm_compute. reflexivity. Qed.

Lemma url_chars_have_no_padding (b : bytes) :
  forallb url_char b = true ->
  ~ In "="%char (list_ascii_of_string (string_of_bytes b)).
Proof.
  intros Hall Hin. rewrite string_of_bytes_chars in Hin.
  apply in_map_iff in Hin as [x [Hx Hin]].
  rewrite forallb_forall in Hall.
  destruct (url_char_plain x (Hall x Hin)) as [Hpad _].
  apply (f_equal byte_of_ascii) in Hx. rewrite byte_of_ascii_of_byte in Hx.
  subst x. discriminate Hpad.
Qed.

(** C3: the generator always returns a pair; the verifier is ASCII text of 86
    characters; the challenge is the URL-safe Base64 text of the SHA-256 digest
    of the verifier's bytes with the padding stripped, which is the unpadded
    encoding, has 43 characters and no [=] in it; deriving the challenge again
    from the verifier gives the same challenge.  The computation is the one of
    RFC 7636: it gives the challenge of the RFC's example (appendix B) for the
    RFC's verifier, and for the entropy bytes 0, 1, ..., 63 it gives the pair
    that [hashlib] and [base64] give. *)
Theorem generate_pkce_challenge (w : world) :
  (exists verifier challenge,
      result (generate_pkce w) = Ok (verifier, challenge)
      /\ encode_ascii verifier = Ok (bytes_of_string verifier)
      /\ challenge
         = string_of_bytes
             (rstrip [pad_byte]
                     (urlsafe_b64encode (sha256 (bytes_of_string verifier))))
      /\ challenge = pkce_challenge verifier
      /\ ~ In "="%char (list_ascii_of_string challenge)
      /\ code_challenge_of verifier = Ok challenge
      /\ String.length verifier = 86%nat
      /\ String.length challenge = 43%nat)
  /\ code_challenge_of "dBjftJeZ4CVP-mB92K27uhbUJU1p1r_wW1gFWFOEjXk"
     = Ok "E9Melhoa2OwvFrEMTJguCHaoeK1t8URWbuGJSstw-cM"
  /\ ((forall i, (i < 64)%nat -> entropy w i = byte_of_N (N.of_nat i)) ->
      result (generate_pkce w)
      = Ok ("AAECAwQFBgcICQoLDA0ODxAREhMUFRYXGBkaGxwdHh8gISIjJCUmJygpKissLS4vMDEyMzQ1Njc4OTo7PD0-Pw",
            "wsNdZaf3VpLTsEDmR5gPk2C6xYVWxKb0xcaG3O6kX10")).
Proof.
  split; [ | split; [ exact rfc7636_appendix_b | ] ].
  - exists (flow_verifier w), (flow_challenge w).
    split; [ rewrite generate_pkce_run; reflexivity | ].
    split.
    { unfold flow_verifier, pkce_verifier.
      rewrite encode_ascii_url by apply base64url_nopad_chars.
      now rewrite bytes_of_string_of_bytes. }
    split.
    { unfold flow_challenge, pkce_challenge.
      now rewrite rstrip_urlsafe_b64encode. }
    split; [ reflexivity | ].
    split.
    { unfold flow_challenge, pkce_challenge.
      apply url_chars_have_no_padding, base64url_nopad_chars. }
    split; [ apply code_challenge_of_verifier | ].
    split; [ apply flow_verifier_length | apply pkce_challenge_length ].
  - intros Hentropy. rewrite generate_pkce_run. cbn [result].
    assert (Hdrawn : drawn w
                     = List.map (fun i => byte_of_N (N.of_nat i)) (seq 0 64)).
    { unfold drawn. apply map_ext_in. intros i Hi. apply in_seq in Hi.
      apply Hentropy. lia. }
    unfold flow_challenge, flow_verifier. rewrite Hdrawn.
    vm_compute. reflexivity.
Qed.

(** ** The claim decoder *)

(** What the decoder returns, case by case; it is a total function, so it
    never raises. *)
Lemma decode_jwt_payload_cases (token : pyval) :
  match token with
  | PStr t =>
      match split_dot t with
      | _ :: payload :: _ =>
          match urlsafe_b64decode
                  (payload ++ equals (4 - String.length payload mod 4))%string with
          | Ok decoded =>
              match json_loads decoded with
              | Ok v => decode_jwt_payload json_loads token = v
              | Raise _ => decode_jwt_payload json_loads token = PDict []
              end
          | Raise _ => decode_jwt_payload json_loads token = PDict []
          end
      | _ => decode_jwt_payload json_loads token = PDict []
      end
  | _ => decode_jwt_payload json_loads token = PDict []
  end.
Proof.
  destruct token as [ | | | |t| | ]; try reflexivity.
  unfold decode_jwt_payload, decode_jwt_try.
  destruct (split_dot t) as [|seg0 [|payload rest]]; try reflexivity.
  cbn [List.length Nat.leb nth].
  destruct (urlsafe_b64decode _) as [decoded|e]; cbn [res_bind]; [ | reflexivity ].
  destruct (json_loads decoded); reflexivity.
Qed.

Lemma sample_token_split : split_dot "x.WzFd.y" = ["x"; "WzFd"; "y"].
Proof. reflexivity. Qed.

Lemma sample_payload_decoded :
  urlsafe_b64decode ("WzFd" ++ equals (4 - String.length "WzFd" mod 4))%string
  = Ok (bytes_of_string "[1]").
Proof. vm_compute. reflexivity. Qed.

(** C7, where the code departs from it: on the token "x.WzFd.y", whose second
    segment is the Base64 text of the JSON array [1], the decoder returns that
    array, which is neither an empty mapping nor a mapping; [print_jwt_claims]
    then raises on it. *)
Theorem decode_jwt_payload_returns_array :
  json_loads (bytes_of_string "[1]") = Ok (PList [PInt 1]) ->
  decode_jwt_payload json_loads (PStr "x.WzFd.y") = PList [PInt 1]
  /\ is_dict (decode_jwt_payload json_loads (PStr "x.WzFd.y")) = false
  /\ raises (print_jwt_claims json_loads (PStr "x.WzFd.y")).
Proof.
  intros Hloads.
  assert (E : decode_jwt_payload json_loads (PStr "x.WzFd.y") = PList [PInt 1]).
  { pose proof (decode_jwt_payload_cases (PStr "x.WzFd.y")) as H.
    cbn iota in H. rewrite sample_token_split in H.
    rewrite sample_payload_decoded in H.
    rewrite Hloads in H. exact H. }
  split; [ exact E | ]. split.
  - rewrite E. reflexivity.
  - unfold print_jwt_claims. rewrite E. eexists. reflexivity.
Qed.

(** ** Base64: decoding what was encoded *)

Lemma byte_of_N_of_byte (b : byte) : byte_of_N (N_of_byte b) = b.
Proof. destruct b; reflexivity. Qed.

(** A character of the URL-safe alphabet, mapped to the standard alphabet, is
    no padding and decodes to its sextet. *)
Lemma sextet_decodes (i : N) :
  (i <? 64)%N = true ->
  Byte.eqb (urlsafe_decode_translation (url64char i)) pad_byte = false
  /\ b64value (urlsafe_decode_translation (url64char i)) = Some i
  /\ urlsafe_decode_translation (url64char i) = b64char i.
Proof.
  intros H. apply N.ltb_lt in H.
  assert (Hb : (negb (Byte.eqb (urlsafe_decode_translation (url64char i)) pad_byte)
                && match b64value (urlsafe_decode_translation (url64char i)) with
                   | Some j => (j =? i)%N
                   | None => false
                   end
                && Byte.eqb (urlsafe_decode_translation (url64char i)) (b64char i))%bool
               = true).
  { apply (below_spec
             (fun i => (negb (Byte.eqb (urlsafe_decode_translation (url64char i)) pad_byte)
                        && match b64value (urlsafe_decode_translation (url64char i)) with
                           | Some j => (j =? i)%N
                           | None => false
                           end
                        && Byte.eqb (urlsafe_decode_translation (url64char i))
                                    (b64char i))%bool) 64);
      [ now vm_compute | exact H ]. }
  apply andb_prop in Hb as [Hb H3]. apply andb_prop in Hb as [H1 H2].
  split; [ now destruct (Byte.eqb _ pad_byte) | ]. split.
  - destruct (b64value _) as [j|]; [ | discriminate H2 ].
    apply N.eqb_eq in H2. now subst j.
  - now apply Byte.byte_dec_bl.
Qed.

(** The bytes come back from their sextets. *)
Lemma regroup_first (x y : N) :
  (x < 256)%N -> (y < 256)%N ->
  N.lor (N.shiftl (sextet_hi x) 2) (N.shiftr (sextet_mid1 x y) 4) = x
  /\ N.land (sextet_mid1 x y) 15 = N.shiftr y 4.
Proof.
  intros Hx Hy.
  assert (H : ((N.lor (N.shiftl (sextet_hi x) 2) (N.shiftr (sextet_mid1 x y) 4) =? x)
               && (N.land (sextet_mid1 x y) 15 =? N.shiftr y 4))%N%bool = true).
  { apply (below_spec
             (fun y => ((N.lor (N.shiftl (sextet_hi x) 2) (N.shiftr (sextet_mid1 x y) 4) =? x)
                        && (N.land (sextet_mid1 x y) 15 =? N.shiftr y 4))%N%bool) 256);
      [ | exact Hy ].
    apply (below_spec
             (fun x => forallb
                (fun y => ((N.lor (N.shiftl (sextet_hi x) 2)
                                  (N.shiftr (sextet_mid1 x y) 4) =? x)
                           && (N.land (sextet_mid1 x y) 15 =? N.shiftr y 4))%N%bool)
                (below 256)) 256); [ now vm_compute | exact Hx ]. }
  apply andb_prop in H as [H1 H2]. split; now apply N.eqb_eq.
Qed.

Lemma regroup_second (y z : N) :
  (y < 256)%N -> (z < 256)%N ->
  N.lor (N.shiftl (N.shiftr y 4) 4) (N.shiftr (sextet_mid2 y z) 2) = y
  /\ N.land (sextet_mid2 y z) 3 = N.shiftr z 6.
Proof.
  intros Hy Hz.
  assert (H : ((N.lor (N.shiftl (N.shiftr y 4) 4) (N.shiftr (sextet_mid2 y z) 2) =? y)
               && (N.land (sextet_mid2 y z) 3 =? N.shiftr z 6))%N%bool = true).
  { apply (below_spec
             (fun z => ((N.lor (N.shiftl (N.shiftr y 4) 4)
                               (N.shiftr (sextet_mid2 y z) 2) =? y)
                        && (N.land (sextet_mid2 y z) 3 =? N.shiftr z 6))%N%bool) 256);
      [ | exact Hz ].
    apply (below_spec
             (fun y => forallb
                (fun z => ((N.lor (N.shiftl (N.shiftr y 4) 4)
                                  (N.shiftr (sextet_mid2 y z) 2) =? y)
                           && (N.land (sextet_mid2 y z) 3 =? N.shiftr z 6))%N%bool)
                (below 256)) 256); [ now vm_compute | exact Hy ]. }
  apply andb_prop in H as [H1 H2]. split; now apply N.eqb_eq.
Qed.

Lemma regroup_third (z : N) :
  (z < 256)%N ->
  N.lor (N.shiftl (N.shiftr z 6) 6) (sextet_lo z) = z.
Proof.
  intros Hz. apply N.eqb_eq.
  apply (below_spec
           (fun z => (N.lor (N.shiftl (N.shiftr z 6) 6) (sextet_lo z) =? z)%N) 256);
    [ now vm_compute | exact Hz ].
Qed.

Lemma regroup_tail1 (x : N) :
  (x < 256)%N ->
  N.lor (N.shiftl (sextet_hi x) 2) (N.shiftr (N.shiftl (N.land x 3) 4) 4) = x.
Proof.
  intros Hx. apply N.eqb_eq.
  apply (below_spec
           (fun x => (N.lor (N.shiftl (sextet_hi x) 2)
                            (N.shiftr (N.shiftl (N.land x 3) 4) 4) =? x)%N) 256);
    [ now vm_compute | exact Hx ].
Qed.

Lemma regroup_tail2 (y : N) :
  (y < 256)%N ->
  N.lor (N.shiftl (N.shiftr y 4) 4) (N.shiftr (N.shiftl (N.land y 15) 2) 2) = y.
Proof.
  intros Hy. apply N.eqb_eq.
  apply (below_spec
           (fun y => (N.lor (N.shiftl (N.shiftr y 4) 4)
                            (N.shiftr (N.shiftl (N.land y 15) 2) 2) =? y)%N) 256);
    [ now vm_compute | exact Hy ].
Qed.

Lemma a2b_loop_sextet (i : N) (rest : bytes) (st : a2b_state) :
  (i <? 64)%N = true ->
  a2b_loop (urlsafe_decode_translation (url64char i) :: rest) st
  = match quad_pos st with
    | 0%N => a2b_loop rest (mk_a2b 1 i 0 (bin_data st))
    | 1%N =>
        a2b_loop rest
          (mk_a2b 2 (N.land i 15) 0
             (byte_of_N (N.lor (N.shiftl (leftchar st) 2) (N.shiftr i 4)) :: bin_data st))
    | 2%N =>
        a2b_loop rest
          (mk_a2b 3 (N.land i 3) 0
             (byte_of_N (N.lor (N.shiftl (leftchar st) 4) (N.shiftr i 2)) :: bin_data st))
    | _ =>
        a2b_loop rest
          (mk_a2b 0 0 0 (byte_of_N (N.lor (N.shiftl (leftchar st) 6) i) :: bin_data st))
    end.
Proof.
  intros H. destruct (sextet_decodes i H) as [Hpad [Hval _]].
  cbn [a2b_loop]. rewrite Hpad, Hval. reflexivity.
Qed.

Lemma a2b_loop_pads_idle (k : nat) (out : bytes) :
  a2b_loop (repeat pad_byte k) (mk_a2b 0 0 0 out) = Ok (rev out).
Proof. induction k as [|k IH]; [ reflexivity | exact IH ]. Qed.

Lemma good_sextet_lt (i : N) : good_sextet i = true -> (i <? 64)%N = true.
Proof.
  unfold good_sextet. intros H. apply andb_prop in H as [H _].
  now apply andb_prop in H as [H _].
Qed.

(** The decoder gives back the bytes of an unpadded encoding that is followed
    by enough padding. *)
Lemma a2b_loop_encoded (s : bytes) :
  forall (out : bytes) (k : nat),
    (pads_needed s <= k)%nat ->
    a2b_loop (List.map urlsafe_decode_translation (base64url_nopad s)
              ++ repeat pad_byte k)
             (mk_a2b 0 0 0 out)
    = Ok (rev out ++ s).
Proof.
  induction s as [ | a | a b | a b c rest IH ] using list_ind3; intros out k Hk.
  - cbn [base64url_nopad List.map app]. rewrite a2b_loop_pads_idle.
    now rewrite app_nil_r.
  - cbn [pads_needed] in Hk. destruct k as [|[|k]]; try lia.
    cbn [base64url_nopad List.map app repeat].
    rewrite a2b_loop_sextet by apply (good_sextet_lt _ (sextet_hi_good a)).
    cbn [quad_pos leftchar pads bin_data].
    rewrite a2b_loop_sextet by apply (good_sextet_lt _ (sextet_tail1_good a)).
    cbn [quad_pos leftchar pads bin_data].
    fold (sextet_hi (N_of_byte a)).
    rewrite (regroup_tail1 (N_of_byte a) (N_of_byte_lt a)), byte_of_N_of_byte.
    cbn [a2b_loop]. cbn. reflexivity.
  - cbn [pads_needed] in Hk. destruct k as [|k]; try lia.
    cbn [base64url_nopad List.map app repeat].
    rewrite a2b_loop_sextet by apply (good_sextet_lt _ (sextet_hi_good a)).
    cbn [quad_pos leftchar pads bin_data].
    rewrite a2b_loop_sextet by apply (good_sextet_lt _ (sextet_mid1_good a b)).
    cbn [quad_pos leftchar pads bin_data].
    rewrite a2b_loop_sextet by apply (good_sextet_lt _ (sextet_tail2_good b)).
    cbn [quad_pos leftchar pads bin_data].
    fold (sextet_hi (N_of_byte a)). fold (sextet_mid1 (N_of_byte a) (N_of_byte b)).
    destruct (regroup_first (N_of_byte a) (N_of_byte b) (N_of_byte_lt a) (N_of_byte_lt b))
      as [-> ->].
    rewrite (regroup_tail2 (N_of_byte b) (N_of_byte_lt b)), !byte_of_N_of_byte.
    cbn [a2b_loop]. cbn. rewrite <- app_assoc. reflexivity.
  - cbn [pads_needed] in Hk.
    cbn [base64url_nopad List.map app].
    rewrite a2b_loop_sextet by apply (good_sextet_lt _ (sextet_hi_good a)).
    cbn [quad_pos leftchar pads bin_data].
    rewrite a2b_loop_sextet by apply (good_sextet_lt _ (sextet_mid1_good a b)).
    cbn [quad_pos leftchar pads bin_data].
    rewrite a2b_loop_sextet by apply (good_sextet_lt _ (sextet_mid2_good b c)).
    cbn [quad_pos leftchar pads bin_data].
    rewrite a2b_loop_sextet by apply (good_sextet_lt _ (sextet_lo_good c)).
    cbn [quad_pos leftchar pads bin_data].
    fold (sextet_hi (N_of_byte a)). fold (sextet_mid1 (N_of_byte a) (N_of_byte b)).
    fold (sextet_mid2 (N_of_byte b) (N_of_byte c)). fold (sextet_lo (N_of_byte c)).
    destruct (regroup_first (N_of_byte a) (N_of_byte b) (N_of_byte_lt a) (N_of_byte_lt b))
      as [-> ->].
    destruct (regroup_second (N_of_byte b) (N_of_byte c) (N_of_byte_lt b) (N_of_byte_lt c))
      as [-> ->].
    rewrite (regroup_third (N_of_byte c) (N_of_byte_lt c)), !byte_of_N_of_byte.
    rewrite (IH _ k Hk). cbn [rev]. rewrite <- !app_assoc. reflexivity.
Qed.

Lemma b64encode_nopad (s : bytes) :
  b64encode s
  = List.map urlsafe_decode_translation (base64url_nopad s)
    ++ repeat pad_byte (pads_needed s).
Proof.
  induction s as [ | a | a b | a b c rest IH ] using list_ind3.
  - reflexivity.
  - cbn [b64encode base64url_nopad List.map pads_needed repeat app].
    use_sextet (proj2 (proj2 (sextet_decodes _ (good_sextet_lt _ (sextet_hi_good a))))).
    use_sextet (proj2 (proj2 (sextet_decodes _ (good_sextet_lt _ (sextet_tail1_good a))))).
    reflexivity.
  - cbn [b64encode base64url_nopad List.map pads_needed repeat app].
    use_sextet (proj2 (proj2 (sextet_decodes _ (good_sextet_lt _ (sextet_hi_good a))))).
    use_sextet (proj2 (proj2 (sextet_decodes _ (good_sextet_lt _ (sextet_mid1_good a b))))).
    use_sextet (proj2 (proj2 (sextet_decodes _ (good_sextet_lt _ (sextet_tail2_good b))))).
    reflexivity.
  - cbn [b64encode base64url_nopad List.map pads_needed app].
    use_sextet (proj2 (proj2 (sextet_decodes _ (good_sextet_lt _ (sextet_hi_good a))))).
    use_sextet (proj2 (proj2 (sextet_decodes _ (good_sextet_lt _ (sextet_mid1_good a b))))).
    use_sextet (proj2 (proj2 (sextet_decodes _ (good_sextet_lt _ (sextet_mid2_good b c))))).
    use_sextet (proj2 (proj2 (sextet_decodes _ (good_sextet_lt _ (sextet_lo_good c))))).
    rewrite IH. reflexivity.
Qed.

(** Standard Base64: decoding an encoding gives the bytes back. *)
Lemma a2b_base64_b64encode (s : bytes) : a2b_base64 (b64encode s) = Ok s.
Proof.
  unfold a2b_base64. rewrite b64encode_nopad.
  now rewrite a2b_loop_encoded by apply le_n.
Qed.

Lemma pads_restored (s : bytes) :
  (pads_needed s <= 4 - List.length (base64url_nopad s) mod 4)%nat.
Proof.
  induction s as [ | a | a b | a b c rest IH ] using list_ind3.
  - cbn. lia.
  - cbn. lia.
  - cbn. lia.
  - cbn [pads_needed base64url_nopad List.length].
    replace (S (S (S (S (List.length (base64url_nopad rest))))))
      with (List.length (base64url_nopad rest) + 1 * 4)%nat by lia.
    now rewrite Nat.Div0.mod_add.
Qed.

Lemma list_ascii_of_string_app (s t : string) :
  list_ascii_of_string (s ++ t)%string
  = list_ascii_of_string s ++ list_ascii_of_string t.
Proof. induction s as [|c s IH]; cbn; [ reflexivity | now rewrite IH ]. Qed.

Lemma equals_chars (k : nat) :
  list_ascii_of_string (equals k) = repeat "="%char k.
Proof. induction k as [|k IH]; cbn; [ reflexivity | now rewrite IH ]. Qed.

(** The decoder of the claim decoder, on an unpadded URL-safe encoding with
    the padding restored the way [decode_jwt_payload] restores it. *)
Lemma urlsafe_b64decode_restored (s : bytes) :
  let payload := string_of_bytes (base64url_nopad s) in
  urlsafe_b64decode (payload ++ equals (4 - String.length payload mod 4))%string
  = Ok s.
Proof.
  cbn zeta. rewrite string_of_bytes_length.
  set (k := (4 - List.length (base64url_nopad s) mod 4)%nat).
  assert (Hk : (pads_needed s <= k)%nat) by apply pads_restored.
  clearbody k.
  unfold urlsafe_b64decode, encode_ascii, bytes_of_string.
  rewrite list_ascii_of_string_app, string_of_bytes_chars, equals_chars.
  assert (Hascii : forallb is_ascii_char
                     (List.map ascii_of_byte (base64url_nopad s) ++ repeat "="%char k)
                   = true).
  { rewrite forallb_app. apply andb_true_intro. split.
    - rewrite forallb_forall. intros c Hc.
      apply in_map_iff in Hc as [x [<- Hx]].
      unfold is_ascii_char. rewrite byte_ascii_code.
      pose proof (base64url_nopad_chars s) as Hall.
      rewrite forallb_forall in Hall.
      now destruct (url_char_plain x (Hall x Hx)).
    - rewrite forallb_forall. intros c Hc. apply repeat_spec in Hc. now subst c. }
  rewrite Hascii.
  rewrite !map_app, !map_map.
  assert (E1 : List.map (fun x => urlsafe_decode_translation
                                    (byte_of_ascii (ascii_of_byte x)))
                        (base64url_nopad s)
               = List.map urlsafe_decode_translation (base64url_nopad s)).
  { apply map_ext. intros x. now rewrite byte_of_ascii_of_byte. }
  assert (E2 : List.map (fun x => urlsafe_decode_translation (byte_of_ascii x))
                        (repeat "="%char k)
               = repeat pad_byte k).
  { clear. induction k as [|k IH]; cbn [repeat List.map];
      [ reflexivity | now rewrite IH ]. }
  rewrite E1, E2. unfold a2b_base64. now rewrite a2b_loop_encoded.
Qed.

(** ** More on the claim decoder *)

Lemma split_dot_cons (h t : string) :
  dot_free h = true ->
  split_dot (h ++ String "."%char t)%string = h :: split_dot t.
Proof.
  unfold dot_free. induction h as [|c h IH]; cbn [list_ascii_of_string forallb];
    intros H.
  - reflexivity.
  - apply andb_prop in H as [Hc Hh].
    cbn [String.append split_dot].
    destruct (Ascii.eqb c "."%char); [ discriminate Hc | ].
    now rewrite (IH Hh).
Qed.

Lemma split_dot_single (t : string) : dot_free t = true -> split_dot t = [t].
Proof.
  unfold dot_free. induction t as [|c t IH]; cbn [list_ascii_of_string forallb];
    intros H.
  - reflexivity.
  - apply andb_prop in H as [Hc Ht]. cbn [split_dot].
    destruct (Ascii.eqb c "."%char); [ discriminate Hc | ].
    now rewrite (IH Ht).
Qed.

Lemma split_dot_not_nil (t : string) : split_dot t <> [].
Proof.
  destruct t as [|c t]; cbn [split_dot]; [ discriminate | ].
  destruct (Ascii.eqb c "."%char); [ discriminate | ].
  destruct (split_dot t); discriminate.
Qed.

Lemma decode_jwt_payload_second (t h p : string) (more : list string) :
  split_dot t = h :: p :: more ->
  decode_jwt_payload json_loads (PStr t) = decoded_segment p.
Proof.
  intros Hsplit. pose proof (decode_jwt_payload_cases (PStr t)) as H.
  cbn iota in H. rewrite Hsplit in H. unfold decoded_segment.
  destruct (urlsafe_b64decode _) as [decoded|e]; [ | exact H ].
  destruct (json_loads decoded); exact H.
Qed.

Lemma url_char_no_dot (ch : byte) :
  url_char ch = true -> Ascii.eqb (ascii_of_byte ch) "."%char = false.
Proof.
  destruct ch; vm_compute; intros H; try discriminate H; reflexivity.
Qed.

Lemma base64url_nopad_dot_free (b : bytes) :
  dot_free (string_of_bytes (base64url_nopad b)) = true.
Proof.
  unfold dot_free. rewrite string_of_bytes_chars, forallb_forall.
  intros c Hc. apply in_map_iff in Hc as [x [<- Hx]].
  pose proof (base64url_nopad_chars b) as Hall. rewrite forallb_forall in Hall.
  now rewrite (url_char_no_dot x (Hall x Hx)).
Qed.

(** The decoder looks at the second segment only: the header, the signature
    and any further segment have no influence on what it returns. *)
Theorem decode_jwt_payload_ignores_header_and_signature (h p rest : string) :
  dot_free h = true ->
  dot_free p = true ->
  decode_jwt_payload json_loads (PStr (h ++ "." ++ p ++ "." ++ rest)%string)
  = decoded_segment p
  /\ decode_jwt_payload json_loads (PStr (h ++ "." ++ p)%string)
     = decoded_segment p.
Proof.
  intros Hh Hp. split.
  - apply (decode_jwt_payload_second _ h p (split_dot rest)).
    change ("." ++ p ++ "." ++ rest)%string
      with (String "."%char (p ++ String "."%char rest)).
    now rewrite (split_dot_cons h _ Hh), (split_dot_cons p rest Hp).
  - apply (decode_jwt_payload_second _ h p []).
    change ("." ++ p)%string with (String "."%char p).
    now rewrite (split_dot_cons h p Hh), (split_dot_single p Hp).
Qed.

(** A token whose second segment is the unpadded URL-safe Base64 text of some
    bytes decodes to the JSON value of these bytes, or to the empty mapping
    when they are not JSON: restoring the padding and decoding undoes the
    encoding. *)
Theorem decode_jwt_payload_of_encoded_claims (h rest : string) (claims : bytes) :
  dot_free h = true ->
  urlsafe_b64decode
    (string_of_bytes (base64url_nopad claims)
     ++ equals (4 - String.length (string_of_bytes (base64url_nopad claims)) mod 4))%string
  = Ok claims
  /\ decode_jwt_payload json_loads
       (PStr (h ++ "." ++ string_of_bytes (base64url_nopad claims) ++ "." ++ rest)%string)
     = match json_loads claims with
       | Ok v => v
       | Raise _ => PDict []
       end.
Proof.
  intros Hh. split; [ apply urlsafe_b64decode_restored | ].
  rewrite (decode_jwt_payload_second _ h (string_of_bytes (base64url_nopad claims))
             (split_dot rest)).
  - unfold decoded_segment. now rewrite (urlsafe_b64decode_restored claims).
  - change ("." ++ string_of_bytes (base64url_nopad claims) ++ "." ++ rest)%string
      with (String "."%char
              (string_of_bytes (base64url_nopad claims) ++ String "."%char rest)).
    now rewrite (split_dot_cons h _ Hh),
                (split_dot_cons _ rest (base64url_nopad_dot_free claims)).
Qed.

(** Input that is no string, or a string without a dot (the empty string
    included), gives the empty mapping. *)
Theorem decode_jwt_payload_without_second_segment (token : pyval) :
  match token with
  | PStr t => dot_free t = true
  | _ => True
  end ->
  decode_jwt_payload json_loads token = PDict [].
Proof.
  destruct token as [ | | | |t| | ]; intros H; try reflexivity.
  pose proof (decode_jwt_payload_cases (PStr t)) as Hc. cbn iota in Hc.
  rewrite (split_dot_single t H) in Hc. exact Hc.
Qed.

(** ** The Basic credentials *)

(** The credentials text of the Authorization header decodes, by standard
    Base64, to the UTF-8 bytes of client_id, a colon and client_secret (an
    unset variable appears as the text None); the step-1 request carries the
    text for the fronting application and the exchange request the text for
    the token exchanger. *)
Theorem basic_credentials_decode
        (client_id client_secret : option string) (scopes : list string)
        (code_challenge : string) (subject_token actor_token : pyval)
        (target_scopes : list string) :
  a2b_base64 (bytes_of_string (basic_auth client_id client_secret))
  = Ok (encode_utf8 (fmt_opt client_id ++ ":" ++ fmt_opt client_secret)%string)
  /\ header_field "Authorization"
       (step1_request client_id client_secret scopes code_challenge)
     = Some ("Basic " ++ basic_auth client_id client_secret)%string
  /\ header_field "Authorization"
       (exchange_request subject_token actor_token target_scopes)
     = Some ("Basic " ++ basic_auth TOKEN_EXCHANGER_CLIENT_ID
                                    TOKEN_EXCHANGER_CLIENT_SECRET)%string.
Proof.
  split; [ | split; reflexivity ].
  unfold basic_auth. rewrite bytes_of_string_of_bytes.
  apply a2b_base64_b64encode.
Qed.

(** ** Outcomes of the steps *)

(** After step 1, exactly one of the flow identifier and the direct code is
    there: the other one is [None]. *)
Theorem step1_populates_exactly_one (resp : response) (flow_id direct_code : pyval) :
  step1_result resp = Ok (flow_id, direct_code) ->
  (flow_id = PNone /\ truthy direct_code = true)
  \/ (truthy flow_id = true /\ direct_code = PNone).
Proof.
  unfold step1_result. intros H.
  destruct (json resp) as [result|e]; cbn [res_bind] in H; [ | discriminate H ].
  destruct (py_get result "flowId" PNone) as [fid|e]; cbn [res_bind] in H;
    [ | discriminate H ].
  destruct (py_get result "flowStatus" PNone) as [st|e]; cbn [res_bind] in H;
    [ | discriminate H ].
  assert (Htail : step1_flow_id result fid = Ok (flow_id, direct_code) ->
                  truthy flow_id = true /\ direct_code = PNone).
  { unfold step1_flow_id. destruct (truthy fid) eqn:E; cbn [negb]; intros H';
      [ | discriminate H' ].
    injection H' as <- <-. now split. }
  destruct (eq_str st "SUCCESS_COMPLETED"); [ | right; now apply Htail ].
  destruct (code_of result) as [dc|e]; cbn [res_bind] in H; [ | discriminate H ].
  destruct (truthy dc) eqn:E; [ | right; now apply Htail ].
  injection H as <- <-. left. now split.
Qed.

(** Step 2 returns a code exactly when the response body is a JSON object that
    has a non-empty code at top level or, the top-level code being absent or
    empty, under authData; in every other case it raises. *)
Theorem step2_result_code (resp : response) (code : pyval) :
  step2_result resp = Ok code
  <-> exists body,
        json resp = Ok (PDict body)
        /\ truthy code = true
        /\ (assoc "code" body = Some code
            \/ ((forall c, assoc "code" body = Some c -> truthy c = false)
                /\ exists auth_data,
                     assoc "authData" body = Some (PDict auth_data)
                     /\ assoc "code" auth_data = Some code)).
Proof.
  unfold step2_result, code_of. split.
  - intros H.
    destruct (json resp) as [[ | | | | | |body]|e]; cbn [res_bind py_get] in H;
      try discriminate H.
    exists body. split; [ reflexivity | ].
    destruct (assoc "flowStatus" body); cbn [res_bind] in H.
    all: destruct (assoc "code" body) as [c0|] eqn:Ec; cbn [res_bind truthy] in H.
    all: try (destruct (truthy c0) eqn:Et; cbn [res_bind negb] in H;
              [ rewrite Et in H; cbn [negb] in H; injection H as <-;
                split; [ exact Et | now left ] | ]).
    all: destruct (assoc "authData" body) as [[ | | | | | |ad]|] eqn:Ea;
      cbn [res_bind py_get assoc] in H; try discriminate H.
    all: try (destruct (assoc "code" ad) as [c1|] eqn:Ec1; cbn [res_bind truthy negb] in H;
              [ destruct (truthy c1) eqn:Et1; cbn [negb] in H; [ | discriminate H ];
                injection H as <-; split; [ exact Et1 | right ];
                split; [ intros c Hc; congruence | exists ad; now split ]
              | discriminate H ]).
  - intros [body [Hjson [Ht [Hc|[Hc [ad [Ha Hac]]]]]]]; rewrite Hjson;
      cbn [res_bind py_get].
    + destruct (assoc "flowStatus" body); cbn [res_bind]; rewrite Hc;
        cbn [res_bind]; rewrite Ht; cbn [res_bind]; now rewrite Ht.
    + assert (Hfalsy : match assoc "code" body with
                       | Some v => truthy v
                       | None => truthy PNone
                       end = false).
      { destruct (assoc "code" body) as [c|]; [ now apply Hc | reflexivity ]. }
      destruct (assoc "flowStatus" body); cbn [res_bind];
        destruct (assoc "code" body) as [c|]; cbn [res_bind]; rewrite Hfalsy;
        rewrite Ha; cbn [res_bind py_get]; rewrite Hac; cbn [res_bind];
        now rewrite Ht.
Qed.

(** [print_token] goes through for strings, lists and mappings of at most 100
    entries, and raises for everything else. *)
Theorem print_token_accepts (token : pyval) :
  print_token token = Ok tt
  <-> match token with
      | PStr _ | PList _ => True
      | PDict items => (List.length items <= 100)%nat
      | _ => False
      end.
Proof.
  unfold print_token.
  destruct token as [ | b | z | f | s | l | items]; cbn [py_len res_bind py_slice];
    try (split; [ intros H; discriminate H | contradiction ]).
  - destruct (100 <? String.length s)%nat; split; auto.
  - destruct (100 <? List.length l)%nat; split; auto.
  - destruct (100 <? List.length items)%nat eqn:E; cbn [res_bind].
    + apply Nat.ltb_lt in E. split; [ intros H; discriminate H | lia ].
    + apply Nat.ltb_ge in E. split; auto.
Qed.

(** What step 3 and the token exchange return is the access_token entry of a
    response with status 200, never anything else. *)
Theorem returned_token_comes_from_response
        client app_id app_secret code verifier subject_token actor_token
        target_scopes label (w : world) (tok : pyval) :
  (result (step3_exchange_code_for_token client app_id app_secret code verifier w)
   = Ok tok ->
   exists resp,
     reply_to w client (step3_request app_id app_secret code verifier) = Ok resp
     /\ status_code resp = 200%Z
     /\ access_token_field resp = Some tok
     /\ sliceable tok = true)
  /\ (result (token_exchange_downscope client subject_token actor_token
                target_scopes label w) = Ok tok ->
      exists resp,
        reply_to w client (exchange_request subject_token actor_token target_scopes)
        = Ok resp
        /\ status_code resp = 200%Z
        /\ access_token_field resp = Some tok
        /\ sized tok = true
        /\ is_dict (decode_jwt_payload json_loads tok) = true).
Proof.
  split.
  - rewrite step3_run. cbn zeta. cbn [result].
    destruct (reply_to w client _) as [resp|e]; cbn [res_bind]; [ | discriminate ].
    unfold step3_result, access_token_field. intros H. exists resp.
    split; [ reflexivity | ].
    destruct (status_code resp =? 200)%Z eqn:Hs; cbn [negb] in H; [ | discriminate H ].
    apply Z.eqb_eq in Hs. split; [ exact Hs | ].
    destruct (json resp) as [[ | | | | | |items]|e]; cbn [res_bind py_get] in H;
      try discriminate H.
    destruct (assoc "access_token" items) as [v|]; cbn [res_bind] in H;
      [ | discriminate H ].
    destruct v; cbn [py_slice res_bind] in H; try discriminate H;
      injection H as <-; split; reflexivity.
  - rewrite exchange_run. cbn zeta. cbn [result].
    destruct (reply_to w client _) as [resp|e]; cbn [res_bind]; [ | discriminate ].
    unfold exchange_result, access_token_field. intros H. exists resp.
    split; [ reflexivity | ].
    destruct (status_code resp =? 200)%Z eqn:Hs; cbn [negb] in H; [ | discriminate H ].
    apply Z.eqb_eq in Hs. split; [ exact Hs | ].
    destruct (json resp) as [[ | | | | | |items]|e]; cbn [res_bind py_get] in H;
      try discriminate H.
    destruct (assoc "access_token" items) as [v|]; cbn [res_bind] in H;
      [ | discriminate H ].
    destruct (print_token v) as [[]|e] eqn:Hp; cbn [res_bind] in H;
      [ | discriminate H ].
    unfold print_jwt_claims in H.
    destruct (decode_jwt_payload json_loads v) as [ | | | | | |claims] eqn:Hd;
      cbn [py_get res_bind] in H; try discriminate H.
    assert (Hv : v = tok).
    { destruct (assoc "sub" claims), (assoc "aud" claims), (assoc "scope" claims);
        cbn [res_bind] in H; now injection H. }
    subst v. split; [ reflexivity | ]. split.
    + destruct tok; try reflexivity; discriminate Hp.
    + now rewrite Hd.
Qed.

(** ** Paths through the flow *)

Lemma code_of_without_code (body : list (string * pyval)) :
  without_code body ->
  exists c, code_of (PDict body) = Ok c /\ truthy c = false.
Proof.
  intros [Htop Hauth]. unfold code_of. cbn [py_get].
  assert (Hnested : exists c,
             res_bind match assoc "authData" body with
                      | Some v => Ok v
                      | None => Ok (PDict [])
                      end (fun auth_data => py_get auth_data "code" PNone) = Ok c
             /\ truthy c = false).
  { destruct Hauth as [->|[a [-> Ha]]]; cbn [res_bind py_get assoc].
    - exists PNone. now split.
    - destruct (assoc "code" a) as [c|] eqn:E.
      + exists c. split; [ reflexivity | now apply Ha ].
      + exists PNone. now split. }
  destruct (assoc "code" body) as [c|]; cbn [res_bind].
  - rewrite (Htop c eq_refl). exact Hnested.
  - cbn [truthy]. exact Hnested.
Qed.

Lemma code_of_auth_data_not_object (body : list (string * pyval)) :
  auth_data_not_object body ->
  exists m, code_of (PDict body) = Raise (AttributeError m).
Proof.
  intros [Htop [a [Ha Hd]]]. unfold code_of. cbn [py_get]. rewrite Ha.
  assert (Hnested : exists m, py_get a "code" PNone = Raise (AttributeError m)).
  { destruct a; try discriminate Hd; eexists; reflexivity. }
  destruct (assoc "code" body) as [c|]; cbn [res_bind].
  - rewrite (Htop c eq_refl). exact Hnested.
  - cbn [truthy]. exact Hnested.
Qed.

(** A JSON object has a truthy code, or none, or an authData entry that is no
    object: the three cases exclude each other and leave nothing out. *)
Lemma code_of_cases (body : list (string * pyval)) :
  (exists c, code_of (PDict body) = Ok c /\ truthy c = true)
  \/ without_code body
  \/ auth_data_not_object body.
Proof.
  unfold code_of, without_code, auth_data_not_object. cbn [py_get].
  assert (Hnested :
            (forall c, assoc "code" body = Some c -> truthy c = false) ->
            (exists c,
                res_bind match assoc "authData" body with
                         | Some v => Ok v
                         | None => Ok (PDict [])
                         end (fun auth_data => py_get auth_data "code" PNone) = Ok c
                /\ truthy c = true)
            \/ ((forall c, assoc "code" body = Some c -> truthy c = false)
                /\ (assoc "authData" body = None
                    \/ exists a, assoc "authData" body = Some (PDict a)
                                 /\ forall c, assoc "code" a = Some c -> truthy c = false))
            \/ ((forall c, assoc "code" body = Some c -> truthy c = false)
                /\ exists a, assoc "authData" body = Some a /\ is_dict a = false)).
  { intros Htop.
    destruct (assoc "authData" body) as [a|]; cbn [res_bind].
    - destruct a as [ | | | | | |items];
        try (right; right; split; [ exact Htop | eexists; split; reflexivity ]).
      cbn [py_get]. destruct (assoc "code" items) as [c|] eqn:E.
      + destruct (truthy c) eqn:Ec.
        * left. exists c. now split.
        * right. left. split; [ exact Htop | ]. right. exists items.
          split; [ reflexivity | ]. intros c' Hc'. rewrite E in Hc'.
          now injection Hc' as <-.
      + right. left. split; [ exact Htop | ]. right. exists items.
        split; [ reflexivity | ]. intros c' Hc'. rewrite E in Hc'. discriminate Hc'.
    - right. left. split; [ exact Htop | now left ]. }
  destruct (assoc "code" body) as [c|]; cbn [res_bind].
  - destruct (truthy c) eqn:Ec.
    + left. exists c. now split.
    + apply Hnested. intros c' Hc'. now injection Hc' as <-.
  - cbn [truthy]. apply Hnested. intros c' Hc'. discriminate Hc'.
Qed.


(** When step 1 gives a flow identifier (and so no direct code), the flow can
    end at step 2 in three ways.  A flow identifier holding a float that is
    not finite cannot be encoded: the step-2 request is not sent and the flow
    raises ValueError after one request.  Otherwise the request is sent; if
    the response is a JSON object without a code, the flow raises the
    ValueError of step 2, whose message quotes the object; if its authData is
    no object, it raises AttributeError.  In both cases two requests were
    sent: the code redemption is not attempted. *)
Theorem flow_without_code_raises
        client aid asec app_id app_secret scopes label (w : world)
        (resp1 : response) (flow_id direct_code : pyval) :
  let r1 := step1_request app_id app_secret (scopes_or_default scopes)
                          (flow_challenge w) in
  let r2 := step2_request flow_id aid asec in
  let w1 := after_post (flow_world w) (clients w) r1 in
  let flow := get_actor_token_3step client aid asec app_id app_secret
                                    scopes label w in
  reply_to (flow_world w) (clients w) r1 = Ok resp1 ->
  step1_result resp1 = Ok (flow_id, direct_code) ->
  truthy direct_code = false ->
  (json_compliant flow_id = false ->
   (exists m, result flow = Raise (ValueError m))
   /\ posts (log flow) = [r1])
  /\ (json_compliant flow_id = true ->
      forall (resp2 : response) (body : list (string * pyval)),
        reply_to w1 (clients w) r2 = Ok resp2 ->
        json resp2 = Ok (PDict body) ->
        (without_code body ->
         result flow
         = Raise (ValueError (TextValue "Authorization code not found in response: "
                                        (PDict body)))
         /\ posts (log flow) = [r1; r2])
        /\ (auth_data_not_object body ->
            (exists m, result flow = Raise (AttributeError m))
            /\ posts (log flow) = [r1; r2])).
Proof.
  cbn zeta. intros Hreply1 Hstep1 Hdirect. split.
  - intros Hbad. rewrite flow_run. cbn zeta. rewrite Hreply1. cbn [res_bind].
    rewrite Hstep1, Hdirect, Hbad. split; [ eexists | ]; reflexivity.
  - intros Hgood resp2 body Hreply2 Hjson.
    assert (Hget : py_get (PDict body) "flowStatus" PNone
                   = Ok match assoc "flowStatus" body with
                        | Some v => v
                        | None => PNone
                        end).
    { cbn [py_get]. now destruct (assoc "flowStatus" body). }
    split.
    + intros Hno. destruct (code_of_without_code body Hno) as [c [Hc Hfalse]].
      assert (Hstep2 : step2_result resp2
                       = Raise (ValueError
                                  (TextValue "Authorization code not found in response: "
                                             (PDict body)))).
      { unfold step2_result. rewrite Hjson. cbn [res_bind]. rewrite Hget.
        cbn [res_bind]. rewrite Hc. cbn [res_bind]. now rewrite Hfalse. }
      rewrite flow_run. cbn zeta. rewrite Hreply1. cbn [res_bind].
      rewrite Hstep1, Hdirect, Hgood, Hreply2. cbn [res_bind].
      rewrite Hstep2. split; reflexivity.
    + intros Hbad. destruct (code_of_auth_data_not_object body Hbad) as [m Hm].
      assert (Hstep2 : step2_result resp2 = Raise (AttributeError m)).
      { unfold step2_result. rewrite Hjson. cbn [res_bind]. rewrite Hget.
        cbn [res_bind]. rewrite Hm. reflexivity. }
      rewrite flow_run. cbn zeta. rewrite Hreply1. cbn [res_bind].
      rewrite Hstep1, Hdirect, Hgood, Hreply2. cbn [res_bind].
      rewrite Hstep2. split; [ now exists m | reflexivity ].
Qed.

(** The ordinary path: the flow identifier of step 1, which can be encoded,
    goes into the step-2 request together with the agent's credentials, the
    code of step 2 goes into the step-3 request, and the string token of
    step 3 is what the flow returns, provided its claims decode to a
    mapping. *)
Theorem flow_returns_issued_token
        client aid asec app_id app_secret scopes label (w : world)
        (resp1 resp2 resp3 : response) (flow_id direct_code code : pyval)
        (token : string) :
  let r1 := step1_request app_id app_secret (scopes_or_default scopes)
                          (flow_challenge w) in
  let r2 := step2_request flow_id aid asec in
  let r3 := step3_request app_id app_secret code (flow_verifier w) in
  let w1 := after_post (flow_world w) (clients w) r1 in
  let w2 := after_post w1 (clients w) r2 in
  reply_to (flow_world w) (clients w) r1 = Ok resp1 ->
  step1_result resp1 = Ok (flow_id, direct_code) ->
  truthy direct_code = false ->
  json_compliant flow_id = true ->
  reply_to w1 (clients w) r2 = Ok resp2 ->
  step2_result resp2 = Ok code ->
  reply_to w2 (clients w) r3 = Ok resp3 ->
  status_code resp3 = 200%Z ->
  access_token_field resp3 = Some (PStr token) ->
  is_dict (decode_jwt_payload json_loads (PStr token)) = true ->
  result (get_actor_token_3step client aid asec app_id app_secret scopes label w)
  = Ok (PStr token)
  /\ posts (log (get_actor_token_3step client aid asec app_id app_secret
                                       scopes label w))
     = [ r1; r2; r3 ].
Proof.
  cbn zeta.
  intros Hreply1 Hstep1 Hdirect Hgood Hreply2 Hstep2 Hreply3 Hs Hfield Hd.
  rewrite flow_run. cbn zeta. rewrite Hreply1. cbn [res_bind].
  rewrite Hstep1, Hdirect, Hgood, Hreply2. cbn [res_bind]. rewrite Hstep2.
  cbn [result log]. rewrite redeem_run. cbn zeta. cbn [result log].
  rewrite Hreply3. cbn [res_bind].
  rewrite (step3_result_string resp3 token Hs Hfield). cbn [res_bind].
  unfold display. rewrite print_token_string. cbn [res_bind].
  rewrite (print_jwt_claims_dict (PStr token) Hd). split; reflexivity.
Qed.

(** ** What a flow and a turn consume *)

Lemma redeem_final fresh app_id app_secret code verifier w :
  final (redeem fresh app_id app_secret code verifier w)
  = after_post w fresh (step3_request app_id app_secret code verifier).
Proof. rewrite redeem_run. reflexivity. Qed.

Lemma flow_final client aid asec app_id app_secret scopes label (w : world) :
  clients (final (get_actor_token_3step client aid asec app_id app_secret
                                        scopes label w)) = S (clients w)
  /\ entropy (final (get_actor_token_3step client aid asec app_id app_secret
                                           scopes label w))
     = fun i => entropy w (64 + i)%nat.
Proof.
  rewrite flow_run. cbn zeta.
  destruct (res_bind _ step1_result) as [[flow_id direct_code]|e];
    [ | split; reflexivity ].
  destruct (truthy direct_code).
  - cbn [final]. rewrite redeem_final. split; reflexivity.
  - destruct (json_compliant flow_id); [ | split; reflexivity ].
    destruct (res_bind _ step2_result) as [code|e]; [ | split; reflexivity ].
    cbn [final]. rewrite redeem_final. split; reflexivity.
Qed.

Lemma map_seq_shift (A : Type) (f : nat -> A) (k n start : nat) :
  List.map (fun i => f (k + i)%nat) (seq start n) = List.map f (seq (k + start) n).
Proof.
  revert start. induction n as [|n IH]; intros start; cbn [seq List.map];
    [ reflexivity | ].
  rewrite IH. replace (k + S start)%nat with (S (k + start)) by lia. reflexivity.
Qed.

(** Whatever its outcome, a flow opens exactly one client and draws exactly
    64 bytes of entropy: the next flow works with the next client number and
    the next 64 bytes. *)
Theorem flow_consumes_one_client_and_64_bytes
        client aid asec app_id app_secret scopes label (w : world) :
  let w' := final (get_actor_token_3step client aid asec app_id app_secret
                                         scopes label w) in
  clients w' = S (clients w)
  /\ (forall i, entropy w' i = entropy w (64 + i)%nat)
  /\ drawn w' = List.map (entropy w) (seq 64 64).
Proof.
  cbn zeta.
  destruct (flow_final client aid asec app_id app_secret scopes label w)
    as [Hc He].
  split; [ exact Hc | ]. split.
  - intros i. now rewrite He.
  - unfold drawn. rewrite He. exact (map_seq_shift byte (entropy w) 64 64 0).
Qed.

(** The requests of the turn of a worker that has credentials: those of its
    flow, followed by one exchange request, with the worker's configured
    scopes, exactly when the flow returned a token. *)
Theorem worker_turn_posts client tok key cfg (w : world) :
  missing (agent_id cfg) || missing (agent_secret cfg) = false ->
  posts (log (worker_turn client tok (key, cfg) w))
  = posts (log (worker_flow client (key, cfg) w))
    ++ match result (worker_flow client (key, cfg) w) with
       | Ok agent_token => [exchange_request tok agent_token (scopes cfg)]
       | Raise _ => []
       end.
Proof.
  intros Hm. rewrite worker_turn_run by exact Hm. rewrite worker_try_run.
  destruct (worker_flow client (key, cfg) w) as [[agent_token|e] w' l];
    cbn [result final log].
  - destruct (res_bind (res_bind _ exchange_result) _); cbn [log];
      rewrite ?posts_app; cbn [posts]; now rewrite ?app_nil_r.
  - rewrite posts_app. reflexivity.
Qed.

(** ** The driver as a whole *)

Lemma flow_posts_length client aid asec app_id app_secret scopes label w :
  (1 <= List.length (posts (log (get_actor_token_3step client aid asec app_id
                                   app_secret scopes label w))) <= 3)%nat.
Proof.
  destruct (flow_posts client aid asec app_id app_secret scopes label w)
    as [->|[[c ->]|[[f ->]|[f [c ->]]]]]; cbn [List.length]; lia.
Qed.

Lemma worker_turn_posts_length client tok entry w :
  (List.length (posts (log (worker_turn client tok entry w))) <= 4)%nat.
Proof.
  destruct entry as [key cfg].
  destruct (missing (agent_id cfg) || missing (agent_secret cfg)) eqn:Hm.
  - rewrite worker_turn_skip by exact Hm. cbn. lia.
  - rewrite worker_turn_run by exact Hm. rewrite worker_try_run.
    pose proof (flow_posts_length client (agent_id cfg) (agent_secret cfg)
                  TOKEN_EXCHANGER_CLIENT_ID TOKEN_EXCHANGER_CLIENT_SECRET
                  (Some ["openid"]) (upper key) w) as Hflow.
    unfold worker_flow. cbn [fst snd].
    destruct (get_actor_token_3step _ _ _ _ _ _ _ w) as [[t|e] w' l];
      cbn [result final log] in *.
    + destruct (res_bind (res_bind _ exchange_result) _); cbn [log];
        rewrite ?posts_app, ?length_app; cbn [posts List.length]; lia.
    + rewrite posts_app, length_app. cbn [posts List.length]. lia.
Qed.

Lemma flat_map_seq_shift (B : Type) (f : nat -> list B) (start n : nat) :
  flat_map f (seq (S start) n) = flat_map (fun i => f (S i)) (seq start n).
Proof.
  revert start. induction n as [|n IH]; intros start; [ reflexivity | ].
  cbn [seq flat_map]. now rewrite IH.
Qed.

(** The requests of the loop are those of its turns, one turn after the
    other, each started in the world the turns before it have left. *)
Lemma worker_loop_posts client tok agents w :
  posts (log (worker_loop client tok agents w))
  = flat_map
      (fun i =>
         match nth_error agents i with
         | Some entry =>
             posts (log (worker_turn client tok entry
                           (final (worker_loop client tok (firstn i agents) w))))
         | None => []
         end)
      (seq 0 (List.length agents)).
Proof.
  revert w. induction agents as [|entry rest IH]; intros w; [ reflexivity | ].
  rewrite worker_loop_cons. cbn zeta. cbn [log List.length seq flat_map].
  rewrite posts_app. cbn [nth_error firstn worker_loop]. f_equal.
  rewrite IH, flat_map_seq_shift.
  apply flat_map_ext. intros i. cbn [nth_error firstn].
  rewrite worker_loop_cons. reflexivity.
Qed.

Lemma flat_map_length_le (A B : Type) (f : A -> list B) (l : list A) (k : nat) :
  (forall a, List.length (f a) <= k)%nat ->
  (List.length (flat_map f l) <= k * List.length l)%nat.
Proof.
  intros Hf. induction l as [|a l IH]; cbn [flat_map List.length]; [ lia | ].
  rewrite length_app. pose proof (Hf a). lia.
Qed.

(** The requests of a run, in the model: those of the orchestrator's flow,
    then those of the turns of the workers. *)
Lemma main_posts (w : world) :
  posts (log (main w))
  = posts (log (orchestrator_flow (clients w)
                  (mk_world (provider w) (entropy w) (S (clients w)))))
    ++ match result (orchestrator_flow (clients w)
                       (mk_world (provider w) (entropy w) (S (clients w)))) with
       | Ok tok =>
           posts (log (worker_loop (clients w) tok AGENTS
                         (final (orchestrator_flow (clients w)
                                   (mk_world (provider w) (entropy w)
                                             (S (clients w)))))))
       | Raise _ => []
       end.
Proof.
  destruct (orchestrator_flow (clients w)
              (mk_world (provider w) (entropy w) (S (clients w))))
    as [[tok|e] wo lo] eqn:Ho; cbn [result final log].
  - rewrite (main_log_ok w wo tok lo Ho), posts_header, !posts_app.
    rewrite (posts_single (Header "TOKEN FLOW SUMMARY")) by discriminate.
    now rewrite app_nil_r.
  - rewrite (main_log_fatal w wo e lo Ho), posts_header, posts_app.
    now rewrite (posts_single (Fatal e)) by discriminate.
Qed.

Lemma worker_loop_posts_length client tok agents w :
  (List.length (posts (log (worker_loop client tok agents w)))
   <= 4 * List.length agents)%nat.
Proof.
  rewrite worker_loop_posts.
  pose proof (flat_map_length_le nat request
                (fun i =>
                   match nth_error agents i with
                   | Some entry =>
                       posts (log (worker_turn client tok entry
                                     (final (worker_loop client tok
                                               (firstn i agents) w))))
                   | None => []
                   end)
                (seq 0 (List.length agents)) 4) as Hle.
  rewrite length_seq in Hle. apply Hle. intros i.
  destruct (nth_error agents i) as [entry|]; [ | cbn; lia ].
  apply worker_turn_posts_length.
Qed.

(** A run sends at most nineteen requests: a flow sends at most three, so the
    orchestrator's flow does; the turn of a worker sends at most four, the
    requests of its flow and at most one more, the exchange; and [AGENTS] has
    four workers. *)
Theorem main_sends_at_most_19_requests (w : world) :
  (forall client aid asec app_id app_secret scopes label w',
      (List.length (posts (log (get_actor_token_3step client aid asec app_id
                                  app_secret scopes label w'))) <= 3)%nat)
  /\ (List.length (posts (log (orchestrator_flow (clients w)
                                 (mk_world (provider w) (entropy w)
                                           (S (clients w)))))) <= 3)%nat
  /\ (forall client tok entry w',
        (List.length (posts (log (worker_flow client entry w'))) <= 3)%nat
        /\ (List.length (posts (log (worker_turn client tok entry w')))
            <= S (List.length (posts (log (worker_flow client entry w')))))%nat
        /\ (List.length (posts (log (worker_turn client tok entry w'))) <= 4)%nat)
  /\ List.length AGENTS = 4%nat
  /\ (List.length (posts (log (main w))) <= 19)%nat.
Proof.
  assert (Hflow : forall client aid asec app_id app_secret scopes label w',
             (List.length (posts (log (get_actor_token_3step client aid asec app_id
                                         app_secret scopes label w'))) <= 3)%nat).
  { intros. apply flow_posts_length. }
  split; [ exact Hflow | ]. split; [ apply Hflow | ].
  split; [ | split; [ reflexivity | ] ].
  - intros client tok [key cfg] w'.
    split; [ apply Hflow | ]. split; [ | apply worker_turn_posts_length ].
    destruct (missing (agent_id cfg) || missing (agent_secret cfg)) eqn:Hm.
    + rewrite worker_turn_skip by exact Hm. cbn [log posts List.length]. lia.
    + rewrite worker_turn_run by exact Hm. rewrite worker_try_run.
      destruct (worker_flow client (key, cfg) w') as [[t|e] w'' l];
        cbn [result final log].
      * destruct (res_bind (res_bind _ exchange_result) _); cbn [log];
          rewrite ?posts_app, ?length_app; cbn [posts List.length]; lia.
      * rewrite posts_app, length_app. cbn [posts List.length]. lia.
  - rewrite main_posts, length_app.
    pose proof (Hflow (clients w) ORCHESTRATOR_AGENT_ID ORCHESTRATOR_AGENT_SECRET
                  ORCHESTRATOR_CLIENT_ID ORCHESTRATOR_CLIENT_SECRET
                  (Some ["openid"]) "ORCHESTRATOR"
                  (mk_world (provider w) (entropy w) (S (clients w)))) as Ho.
    fold (orchestrator_flow (clients w)
            (mk_world (provider w) (entropy w) (S (clients w)))) in Ho.
    destruct (result (orchestrator_flow (clients w) _)) as [tok|e].
    + pose proof (worker_loop_posts_length (clients w) tok AGENTS
                    (final (orchestrator_flow (clients w)
                              (mk_world (provider w) (entropy w) (S (clients w))))))
        as Hloop.
      assert (Hfour : List.length AGENTS = 4%nat) by reflexivity.
      lia.
    + cbn [List.length]. lia.
Qed.

(** ** Clients *)

Lemma flow_events client aid asec app_id app_secret scopes label w c r :
  In (Post c r) (log (get_actor_token_3step client aid asec app_id app_secret
                                            scopes label w)) ->
  c = clients w /\ ~ is_exchange r.
Proof.
  intros Hin.
  assert (Hr : In r (posts (log (get_actor_token_3step client aid asec app_id
                                   app_secret scopes label w)))).
  { apply In_posts. now exists c. }
  split; [ | exact (flow_request_not_exchange _ _ _ _ _ _ _ _ _ Hr) ].
  destruct (flow_log client aid asec app_id app_secret scopes label w)
    as [reqs [Hlog _]].
  rewrite Hlog in Hin. destruct Hin as [Hin|Hin]; [ discriminate Hin | ].
  apply in_map_iff in Hin as [r' [Heq _]]. now injection Heq.
Qed.

(** A request of a turn is a request of the turn's flow, sent through the
    client the flow opened, or the exchange, sent through the driver's. *)
Lemma worker_turn_events client tok entry w c r :
  In (Post c r) (log (worker_turn client tok entry w)) ->
  (In (Post c r) (log (worker_flow client entry w))
   /\ c = clients w /\ ~ is_exchange r)
  \/ (c = client /\ is_exchange r).
Proof.
  destruct entry as [key cfg].
  destruct (missing (agent_id cfg) || missing (agent_secret cfg)) eqn:Hm.
  - rewrite worker_turn_skip by exact Hm. cbn [log In].
    intros [H|[]]. discriminate H.
  - rewrite worker_turn_run by exact Hm. rewrite worker_try_run.
    pose proof (fun H => flow_events client (agent_id cfg) (agent_secret cfg)
                  TOKEN_EXCHANGER_CLIENT_ID TOKEN_EXCHANGER_CLIENT_SECRET
                  (Some ["openid"]) (upper key) w c r H) as Hflow.
    unfold worker_flow. cbn [fst snd].
    destruct (get_actor_token_3step _ _ _ _ _ _ _ w) as [[t|e] w' l];
      cbn [result final log] in *.
    + assert (Hin' : In (Post c r)
                        (l ++ [Header ("TOKEN EXCHANGE (DOWNSCOPE): " ++ upper key)%string;
                               Post client (exchange_request tok t (scopes cfg))]) ->
                     (In (Post c r) l /\ c = clients w /\ ~ is_exchange r)
                     \/ (c = client /\ is_exchange r)).
      { intros H. apply in_app_or in H as [H|[H|[H|[]]]].
        - left. split; [ exact H | now apply Hflow ].
        - discriminate H.
        - injection H as <- <-. right. split; reflexivity. }
      destruct (res_bind (res_bind _ exchange_result) _); cbn [log]; intros H.
      * now apply Hin'.
      * apply in_app_or in H as [H|[H|[]]]; [ now apply Hin' | discriminate H ].
    + intros H. apply in_app_or in H as [H|[H|[]]]; [ | discriminate H ].
      left. split; [ exact H | now apply Hflow ].
Qed.

(** A turn that is not skipped opens one client: the one of its flow. *)
Lemma worker_turn_opens_client client tok key cfg w :
  missing (agent_id cfg) || missing (agent_secret cfg) = false ->
  clients (final (worker_turn client tok (key, cfg) w)) = S (clients w).
Proof.
  intros Hm. rewrite worker_turn_run by exact Hm. rewrite worker_try_run.
  pose proof (proj1 (flow_final
                       client (agent_id cfg) (agent_secret cfg)
                       TOKEN_EXCHANGER_CLIENT_ID TOKEN_EXCHANGER_CLIENT_SECRET
                       (Some ["openid"]) (upper key) w)) as Hc.
  unfold worker_flow. cbn [fst snd].
  destruct (get_actor_token_3step _ _ _ _ _ _ _ w) as [[t|e] w' l];
    cbn [result final log] in *.
  + destruct (res_bind (res_bind _ exchange_result) _);
      cbn [final after_post clients]; exact Hc.
  + exact Hc.
Qed.

Lemma worker_turn_final_clients client tok entry w :
  (clients w <= clients (final (worker_turn client tok entry w)))%nat.
Proof.
  destruct entry as [key cfg].
  destruct (missing (agent_id cfg) || missing (agent_secret cfg)) eqn:Hm.
  - rewrite worker_turn_skip by exact Hm. cbn [final]. lia.
  - rewrite (worker_turn_opens_client client tok key cfg w Hm). lia.
Qed.

Lemma worker_loop_final_clients client tok agents w :
  (clients w <= clients (final (worker_loop client tok agents w)))%nat.
Proof.
  revert w. induction agents as [|entry rest IH]; intros w.
  - cbn. lia.
  - rewrite worker_loop_cons. cbn zeta. cbn [final].
    pose proof (worker_turn_final_clients client tok entry w).
    pose proof (IH (final (worker_turn client tok entry w))). lia.
Qed.

Lemma worker_loop_app client tok l1 l2 w :
  final (worker_loop client tok (l1 ++ l2) w)
  = final (worker_loop client tok l2 (final (worker_loop client tok l1 w))).
Proof.
  revert w. induction l1 as [|entry l1 IH]; intros w; [ reflexivity | ].
  cbn [app]. rewrite !worker_loop_cons. cbn zeta. cbn [final]. apply IH.
Qed.

(** The turn of a worker that is not skipped starts with fewer clients opened
    than any later turn. *)
Lemma world_before_clients client tok w i j key cfg :
  nth_error AGENTS i = Some (key, cfg) ->
  missing (agent_id cfg) || missing (agent_secret cfg) = false ->
  (i < j)%nat ->
  (clients (world_before client tok i w) < clients (world_before client tok j w))%nat.
Proof.
  intros Hnth Hm Hij. unfold world_before.
  assert (Hsplit : firstn j AGENTS
                   = firstn i AGENTS ++ (key, cfg) :: skipn (S i) (firstn j AGENTS)).
  { rewrite <- (firstn_skipn i (firstn j AGENTS)) at 1.
    rewrite firstn_firstn, (Nat.min_l i j) by lia. f_equal.
    assert (Hnth' : nth_error (firstn j AGENTS) i = Some (key, cfg)).
    { rewrite nth_error_firstn. destruct (Nat.ltb_spec i j); [ exact Hnth | lia ]. }
    clear Hnth. revert Hnth'. generalize (firstn j AGENTS). intros l. revert i Hij.
    induction l as [|x l IH]; intros i Hij H.
    - destruct i; discriminate H.
    - destruct i as [|i].
      + now injection H as ->.
      + cbn [skipn]. cbn [nth_error] in H.
        destruct j as [|j]; [ lia | ].
        apply IH; [ | exact H ]. lia. }
  rewrite Hsplit, worker_loop_app, worker_loop_cons. cbn zeta. cbn [final].
  pose proof (worker_turn_opens_client client tok key cfg
                (final (worker_loop client tok (firstn i AGENTS) w)) Hm) as Hopen.
  pose proof (worker_loop_final_clients client tok (skipn (S i) (firstn j AGENTS))
                (final (worker_turn client tok (key, cfg)
                          (final (worker_loop client tok (firstn i AGENTS) w)))))
    as Hrest.
  lia.
Qed.

(** Every token-exchange request of a run goes through the client [main]
    opened at its start.  Every other request belongs to one flow, the
    orchestrator's or that of a worker's turn, and goes through the client
    that this flow opened: the second client of the run for the orchestrator,
    and for a worker the client numbered by the clients opened before its
    turn.  These numbers are all different: a worker's flow has a client
    opened after the orchestrator's, and after the clients of the flows of
    the workers before it. *)
Theorem flows_use_their_own_client (w : world) :
  let client := clients w in
  let o := orchestrator_flow client
             (mk_world (provider w) (entropy w) (S (clients w))) in
  (forall c r,
      In (Post c r) (log (main w)) ->
      (is_exchange r /\ c = client)
      \/ (~ is_exchange r /\ In (Post c r) (log o) /\ c = S client)
      \/ (~ is_exchange r
          /\ exists tok i entry,
               result o = Ok tok
               /\ nth_error AGENTS i = Some entry
               /\ In (Post c r)
                     (log (worker_flow client entry
                             (world_before client tok i (final o))))
               /\ c = clients (world_before client tok i (final o))))
  /\ (forall tok i, (S client < clients (world_before client tok i (final o)))%nat)
  /\ (forall tok i j key cfg,
        nth_error AGENTS i = Some (key, cfg) ->
        missing (agent_id cfg) || missing (agent_secret cfg) = false ->
        (i < j)%nat ->
        (clients (world_before client tok i (final o))
         < clients (world_before client tok j (final o)))%nat).
Proof.
  cbn zeta.
  pose proof (proj1 (flow_final
                       (clients w) ORCHESTRATOR_AGENT_ID ORCHESTRATOR_AGENT_SECRET
                       ORCHESTRATOR_CLIENT_ID ORCHESTRATOR_CLIENT_SECRET
                       (Some ["openid"]) "ORCHESTRATOR"
                       (mk_world (provider w) (entropy w) (S (clients w))))) as Hc.
  pose proof (fun c r H => flow_events (clients w) ORCHESTRATOR_AGENT_ID
                ORCHESTRATOR_AGENT_SECRET ORCHESTRATOR_CLIENT_ID
                ORCHESTRATOR_CLIENT_SECRET (Some ["openid"]) "ORCHESTRATOR"
                (mk_world (provider w) (entropy w) (S (clients w))) c r H) as Hflow.
  fold (orchestrator_flow (clients w)
          (mk_world (provider w) (entropy w) (S (clients w)))) in Hc, Hflow.
  cbn [clients] in Hc, Hflow.
  split; [ | split ].
  - intros c r.
    destruct (orchestrator_flow (clients w)
                (mk_world (provider w) (entropy w) (S (clients w))))
      as [[tok|e] wo lo] eqn:Ho; cbn [result final log] in *.
    + rewrite (main_log_ok w wo tok lo Ho). intros [H|H]; [ discriminate H | ].
      apply in_app_or in H as [H|H].
      { destruct (Hflow c r H) as [-> Hne]. right. left.
        split; [ exact Hne | ]. split; [ exact H | reflexivity ]. }
      apply in_app_or in H as [H|[H|[]]]; [ | discriminate H ].
      apply worker_loop_event in H as [i [entry [Hnth Hturn]]].
      destruct (worker_turn_events _ _ _ _ _ _ Hturn)
        as [[Hin [-> Hne]]|[-> Hex]].
      * right. right. split; [ exact Hne | ].
        exists tok, i, entry. split; [ reflexivity | ]. split; [ exact Hnth | ].
        split; [ exact Hin | reflexivity ].
      * left. split; [ exact Hex | reflexivity ].
    + rewrite (main_log_fatal w wo e lo Ho). intros [H|H]; [ discriminate H | ].
      apply in_app_or in H as [H|[H|[]]]; [ | discriminate H ].
      destruct (Hflow c r H) as [-> Hne]. right. left.
      split; [ exact Hne | ]. split; [ exact H | reflexivity ].
  - intros tok i. unfold world_before.
    pose proof (worker_loop_final_clients (clients w) tok (firstn i AGENTS)
                  (final (orchestrator_flow (clients w)
                            (mk_world (provider w) (entropy w) (S (clients w))))))
      as Hi.
    lia.
  - intros tok i j key cfg Hnth Hm Hij.
    now apply (world_before_clients (clients w) tok _ i j key cfg).
Qed.

(** The verifier and the challenge are made of letters, digits, [-] and [_]
    only, and the verifier has a length RFC 7636 admits (43 to 128). *)
Theorem pkce_pair_is_url_safe (w : world) :
  exists verifier challenge,
    result (generate_pkce w) = Ok (verifier, challenge)
    /\ forallb url_char (bytes_of_string verifier) = true
    /\ forallb url_char (bytes_of_string challenge) = true
    /\ (43 <= String.length verifier <= 128)%nat.
Proof.
  exists (flow_verifier w), (flow_challenge w).
  split; [ rewrite generate_pkce_run; reflexivity | ].
  split; [ | split ].
  - unfold flow_verifier, pkce_verifier. rewrite bytes_of_string_of_bytes.
    apply base64url_nopad_chars.
  - unfold flow_challenge, pkce_challenge. rewrite bytes_of_string_of_bytes.
    apply base64url_nopad_chars.
  - rewrite flow_verifier_length. lia.
Qed.

End Engine.

(** * Concrete runs

    The statements above, applied to runs against the scripted provider. *)

(** The IT agent has no credentials in the demonstration environment: its
    turn sends nothing. *)
Lemma worker_without_credentials_is_skipped_witness :
  In ("it_agent", it_cfg) (AGENTS demo_env)
  /\ posts (log (worker_turn BasicJson.loads demo_env scripted 0 (PStr "orch-token")
                   ("it_agent", it_cfg) (mk_world demo_script demo_entropy 0))) = [].
Proof.
  split; [ right; left; reflexivity | ].
  refine (proj1 (proj2 (worker_without_credentials_is_skipped
                          BasicJson.loads demo_env _ scripted 0 (PStr "orch-token")
                          "it_agent" it_cfg [] (mk_world demo_script demo_entropy 0) _))).
  left. reflexivity.
Defined.



(** With the JSON reader of the tests, the decoder returns the array. *)
Lemma decode_jwt_payload_returns_array_witness :
  decode_jwt_payload BasicJson.loads (PStr "x.WzFd.y") = PList [PInt 1].
Proof.
  refine (proj1 (decode_jwt_payload_returns_array BasicJson.loads _)).
  vm_compute. reflexivity.
Defined.

(** The exchange of the HR agent's turn asks for the HR scopes. *)
Lemma exchange_scope_is_configured_scope_witness :
  exists scope,
    form_field "scope"
      (exchange_request demo_env (PStr "orch-token") (PStr "hr-token")
                        ["hr:read"; "hr:write"])
    = Some (PStr scope)
    /\ scope = join " " (sorted_strings (scopes hr_cfg))
    /\ scope = join " " (scopes hr_cfg)
    /\ In ("hr_agent", scope) scope_texts
    /\ words scope = scopes hr_cfg
    /\ (forall s, In s (words scope) -> In s (scopes hr_cfg)).
Proof.
  apply (proj2 (exchange_scope_is_configured_scope
                  BasicJson.loads demo_env _ scripted
                  (mk_world demo_script demo_entropy 0))
               0%nat "hr_agent" hr_cfg eq_refl
               0%nat (PStr "orch-token") (mk_world hr_turn_script demo_entropy 0)
               0%nat
               (exchange_request demo_env (PStr "orch-token") (PStr "hr-token")
                                 ["hr:read"; "hr:write"])).
  - vm_compute. do 4 right. left. reflexivity.
  - reflexivity.
Defined.

(** The same exchange has the orchestrator's token as subject and the HR
    agent's token as actor. *)
Lemma exchange_uses_orchestrator_and_worker_tokens_witness :
  exists tok i key cfg agent_token,
    result (orchestrator_flow BasicJson.loads demo_env scripted 0
              (mk_world demo_script demo_entropy 1)) = Ok tok
    /\ nth_error (AGENTS demo_env) i = Some (key, cfg)
    /\ result (get_actor_token_3step BasicJson.loads demo_env scripted 0
                 (agent_id cfg) (agent_secret cfg)
                 (TOKEN_EXCHANGER_CLIENT_ID demo_env)
                 (TOKEN_EXCHANGER_CLIENT_SECRET demo_env)
                 (Some ["openid"]) (upper key)
                 (world_before BasicJson.loads demo_env scripted 0 tok i
                    (final (orchestrator_flow BasicJson.loads demo_env scripted 0
                              (mk_world demo_script demo_entropy 1)))))
       = Ok agent_token
    /\ exchange_request demo_env (PStr "orch-token") (PStr "hr-token")
                        ["hr:read"; "hr:write"]
       = exchange_request demo_env tok agent_token (scopes cfg)
    /\ form_field "subject_token"
         (exchange_request demo_env (PStr "orch-token") (PStr "hr-token")
                           ["hr:read"; "hr:write"]) = Some tok
    /\ form_field "actor_token"
         (exchange_request demo_env (PStr "orch-token") (PStr "hr-token")
                           ["hr:read"; "hr:write"]) = Some agent_token
    /\ form_field "scope"
         (exchange_request demo_env (PStr "orch-token") (PStr "hr-token")
                           ["hr:read"; "hr:write"])
       = Some (PStr (join " " (scopes cfg))).
Proof.
  apply (exchange_uses_orchestrator_and_worker_tokens
           BasicJson.loads demo_env _ scripted
           (mk_world demo_script demo_entropy 0)).
  - vm_compute. do 5 right. left. reflexivity.
  - reflexivity.
Defined.

(** The orchestrator's authorization initiation in the demonstration run. *)
Lemma authorize_request_asks_for_openid_witness :
  form_field "scope"
    (step1_request demo_env (Some "orch-app") (Some "orch-app-secret") ["openid"]
                   (flow_challenge (mk_world demo_script demo_entropy 1)))
  = Some (PStr "openid").
Proof.
  destruct (proj1 (authorize_request_asks_for_openid
                     BasicJson.loads demo_env _ scripted
                     (mk_world demo_script demo_entropy 0)
                     (step1_request demo_env (Some "orch-app") (Some "orch-app-secret")
                        ["openid"]
                        (flow_challenge (mk_world demo_script demo_entropy 1)))
                     ltac:(vm_compute; left; reflexivity)
                     ltac:(reflexivity)))
    as [app_id [app_secret [w' [_ [_ [H _]]]]]].
  exact H.
Defined.

(** After the failure of the HR agent, the booking agent still gets its turn,
    and its turn is part of the run. *)
Lemma worker_failures_are_isolated_witness :
  exists before after,
    log (main BasicJson.loads demo_env scripted
           (mk_world isolation_script demo_entropy 0))
    = before
      ++ log (worker_turn BasicJson.loads demo_env scripted 0 (PStr "orch-token")
                ("booking_agent", booking_cfg)
                (world_before BasicJson.loads demo_env scripted 0
                   (PStr "orch-token") 3
                   (final (orchestrator_flow BasicJson.loads demo_env scripted 0
                             (mk_world isolation_script demo_entropy 1)))))
      ++ after.
Proof.
  refine (proj1 (proj2 (worker_failures_are_isolated
                          BasicJson.loads demo_env _ scripted
                          (mk_world isolation_script demo_entropy 0))
                       (PStr "orch-token") _ 3%nat "booking_agent" booking_cfg _ _)).
  - vm_compute. reflexivity.
  - reflexivity.
  - reflexivity.
Defined.

(** The pair the generator makes of the entropy bytes 0, 1, ..., 63. *)
Lemma generate_pkce_challenge_witness :
  result (generate_pkce (mk_world demo_script counting_entropy 0))
  = Ok ("AAECAwQFBgcICQoLDA0ODxAREhMUFRYXGBkaGxwdHh8gISIjJCUmJygpKissLS4vMDEyMzQ1Njc4OTo7PD0-Pw",
        "wsNdZaf3VpLTsEDmR5gPk2C6xYVWxKb0xcaG3O6kX10").
Proof.
  apply (proj2 (proj2 (generate_pkce_challenge
                         _ (mk_world demo_script counting_entropy 0)))).
  intros i Hi. reflexivity.
Defined.


(** * Where the code departs from the specification *)

(** C5 as the specification states it fails: in the demonstration run, the
    step-1 request of the HR agent asks for "openid", which is not the HR
    agent's configured scope list. *)
Lemma worker_step1_scope_counterexample :
  In ("hr_agent", hr_cfg) (AGENTS demo_env)
  /\ nth_error (log (main BasicJson.loads demo_env scripted
                       (mk_world demo_script demo_entropy 0))) 5
     = Some (Header "3-STEP ACTOR TOKEN FLOW: HR_AGENT")
  /\ match nth_error (log (main BasicJson.loads demo_env scripted
                             (mk_world demo_script demo_entropy 0))) 6 with
     | Some (Post _ r) =>
         is_authorize r
         /\ form_field "scope" r = Some (PStr "openid")
         /\ form_field "scope" r <> Some (PStr (join " " (scopes hr_cfg)))
     | _ => False
     end.
Proof.
  split; [ left; reflexivity | ].
  split; [ vm_compute; reflexivity | ].
  vm_compute. split; [ reflexivity | ]. split; [ reflexivity | ].
  intros H. discriminate H.
Qed.


(** * Concrete runs of the further properties *)

(** A token with a header, the claims [{"sub":"hr"}] and a signature. *)
Lemma decode_jwt_payload_ignores_header_and_signature_witness :
  decode_jwt_payload BasicJson.loads
    (PStr "eyJhbGciOiJub25lIn0.eyJzdWIiOiJociJ9.sig")
  = decoded_segment BasicJson.loads "eyJzdWIiOiJociJ9".
Proof.
  refine (proj1 (decode_jwt_payload_ignores_header_and_signature
                   BasicJson.loads "eyJhbGciOiJub25lIn0" "eyJzdWIiOiJociJ9" "sig"
                   _ _)); reflexivity.
Defined.

(** The claims [null], encoded, come back as [None]. *)
Lemma decode_jwt_payload_of_encoded_claims_witness :
  decode_jwt_payload BasicJson.loads (PStr "h.bnVsbA.s") = PNone.
Proof.
  refine (proj2 (decode_jwt_payload_of_encoded_claims
                   BasicJson.loads "h" "s" (bytes_of_string "null") _)).
  reflexivity.
Defined.

(** The opaque tokens of the scripted provider have no claims. *)
Lemma decode_jwt_payload_without_second_segment_witness :
  decode_jwt_payload BasicJson.loads (PStr "hr-token") = PDict [].
Proof.
  apply (decode_jwt_payload_without_second_segment BasicJson.loads (PStr "hr-token")).
  reflexivity.
Defined.

(** The first reply of the three-step flow gives the flow identifier only. *)
Lemma step1_populates_exactly_one_witness :
  (PStr "f1" = PNone /\ truthy PNone = true)
  \/ (truthy (PStr "f1") = true /\ PNone = PNone).
Proof.
  apply (step1_populates_exactly_one
           (mk_response 200 ""
              (Ok (PDict [("flowId", PStr "f1"); ("flowStatus", PStr "INCOMPLETE")])))
           (PStr "f1") PNone).
  reflexivity.
Defined.

(** A string token of step 3 is the access_token of the reply. *)
Lemma returned_token_comes_from_response_witness :
  exists resp,
    reply_to scripted (mk_world (tl direct_script) demo_entropy 0) 0
             (step3_request demo_env (Some "exchanger-app")
                            (Some "exchanger-app-secret") (PStr "c2") "verifier")
    = Ok resp
    /\ status_code resp = 200%Z
    /\ access_token_field resp = Some (PStr "hr-token")
    /\ sliceable (PStr "hr-token") = true.
Proof.
  refine (proj1 (returned_token_comes_from_response
                   BasicJson.loads demo_env _ scripted 0
                   (Some "exchanger-app") (Some "exchanger-app-secret")
                   (PStr "c2") "verifier" (PStr "s") (PStr "a") ["hr:read"]
                   "HR_AGENT" (mk_world (tl direct_script) demo_entropy 0)
                   (PStr "hr-token")) _).
  reflexivity.
Defined.


(** The flow whose authentication gives no code. *)
Lemma flow_without_code_raises_witness :
  result (get_actor_token_3step BasicJson.loads demo_env scripted 0
            (Some "hr-id") (Some "hr-secret")
            (Some "exchanger-app") (Some "exchanger-app-secret")
            (Some ["openid"]) "HR_AGENT" (mk_world no_code_script demo_entropy 0))
  = Raise (ValueError (TextValue "Authorization code not found in response: "
                                 (PDict [("flowStatus", PStr "FAIL_INCOMPLETE")]))).
Proof.
  refine (proj1 (proj1 (proj2 (flow_without_code_raises
                                 BasicJson.loads demo_env _ scripted 0
                                 (Some "hr-id") (Some "hr-secret")
                                 (Some "exchanger-app") (Some "exchanger-app-secret")
                                 (Some ["openid"]) "HR_AGENT"
                                 (mk_world no_code_script demo_entropy 0)
                                 (mk_response 200 ""
                                    (Ok (PDict [("flowId", PStr "f1");
                                                ("flowStatus", PStr "INCOMPLETE")])))
                                 (PStr "f1") PNone _ _ _)
                              _
                              (mk_response 200 ""
                                 (Ok (PDict [("flowStatus", PStr "FAIL_INCOMPLETE")])))
                              [("flowStatus", PStr "FAIL_INCOMPLETE")] _ _)
                       _)).
  - reflexivity.
  - reflexivity.
  - reflexivity.
  - reflexivity.
  - reflexivity.
  - reflexivity.
  - split; [ intros c H; discriminate H | left; reflexivity ].
Defined.

(** The orchestrator's flow against the three-step provider. *)
Lemma flow_returns_issued_token_witness :
  result (get_actor_token_3step BasicJson.loads demo_env scripted 0
            (Some "orch-agent") (Some "orch-agent-secret")
            (Some "orch-app") (Some "orch-app-secret")
            (Some ["openid"]) "ORCHESTRATOR"
            (mk_world three_step_script demo_entropy 0))
  = Ok (PStr "orch-token").
Proof.
  refine (proj1 (flow_returns_issued_token
                   BasicJson.loads demo_env _ scripted 0
                   (Some "orch-agent") (Some "orch-agent-secret")
                   (Some "orch-app") (Some "orch-app-secret")
                   (Some ["openid"]) "ORCHESTRATOR"
                   (mk_world three_step_script demo_entropy 0)
                   (mk_response 200 ""
                      (Ok (PDict [("flowId", PStr "f1");
                                  ("flowStatus", PStr "INCOMPLETE")])))
                   (mk_response 200 ""
                      (Ok (PDict [("code", PStr "c1");
                                  ("flowStatus", PStr "SUCCESS_COMPLETED")])))
                   (mk_response 200 ""
                      (Ok (PDict [("access_token", PStr "orch-token")])))
                   (PStr "f1") PNone (PStr "c1") "orch-token"
                   _ _ _ _ _ _ _ _ _ _)); reflexivity.
Defined.

(** The HR agent's turn: two requests of its flow, then the exchange. *)
Lemma worker_turn_posts_witness :
  posts (log (worker_turn BasicJson.loads demo_env scripted 0 (PStr "orch-token")
                ("hr_agent", hr_cfg)
                (mk_world hr_turn_script
                          demo_entropy 0)))
  = posts (log (worker_flow BasicJson.loads demo_env scripted 0 ("hr_agent", hr_cfg)
                  (mk_world hr_turn_script
                            demo_entropy 0)))
    ++ match result (worker_flow BasicJson.loads demo_env scripted 0
                       ("hr_agent", hr_cfg)
                       (mk_world hr_turn_script demo_entropy 0)) with
       | Ok agent_token =>
           [exchange_request demo_env (PStr "orch-token") agent_token
                             ["hr:read"; "hr:write"]]
       | Raise _ => []
       end.
Proof.
  apply (worker_turn_posts BasicJson.loads demo_env _ scripted 0 (PStr "orch-token")
           "hr_agent" hr_cfg
           (mk_world hr_turn_script
                     demo_entropy 0)).
  reflexivity.
Defined.

(** The HR agent's exchange in the demonstration run goes through the
    driver's client, which is the first client of the run. *)
Lemma flows_use_their_own_client_witness :
  let w := mk_world demo_script demo_entropy 0 in
  let o := orchestrator_flow BasicJson.loads demo_env scripted 0
             (mk_world demo_script demo_entropy 1) in
  let r := exchange_request demo_env (PStr "orch-token") (PStr "hr-token")
                            ["hr:read"; "hr:write"] in
  (is_exchange r /\ 0%nat = clients w)
  \/ (~ is_exchange r /\ In (Post 0 r) (log o) /\ 0%nat = S (clients w))
  \/ (~ is_exchange r
      /\ exists tok i entry,
           result o = Ok tok
           /\ nth_error (AGENTS demo_env) i = Some entry
           /\ In (Post 0 r)
                 (log (worker_flow BasicJson.loads demo_env scripted (clients w) entry
                         (world_before BasicJson.loads demo_env scripted (clients w)
                            tok i (final o))))
           /\ 0%nat = clients (world_before BasicJson.loads demo_env scripted
                                (clients w) tok i (final o))).
Proof.
  apply (proj1 (flows_use_their_own_client
                  BasicJson.loads demo_env _ scripted
                  (mk_world demo_script demo_entropy 0))
               0%nat
               (exchange_request demo_env (PStr "orch-token") (PStr "hr-token")
                                 ["hr:read"; "hr:write"])).
  vm_compute. do 9 right. left. reflexivity.
Defined.
